(** * PBS relay subsystem of the validator node: relay registry,
      validator registration, proposal pipeline and ingress validators.

    Shallow embedding of
      - package miner  (ClientMapping, Miner.ProposedBlock,
        Miner.registerValidator, Miner.AddRelay, Miner.RemoveRelay),
      - package ethapi (checkBasic, checkBlock, checkSignature,
        PublicBuilderAPI.Bid),
      - package grpc   (Proposer.ProposeBlock).

    Conventions.
      - A Go [uint64]/[int64] is a [Z]; where the source does arithmetic on
        it the wrap-around is written out ([wrap_u64], [to_int64]).
      - A [*big.Int] is a [Z].
      - A Go [map[string]T] is a [gmap string T].
      - A Go [error] is a value of the inductive [error]; [nil] is [None].
      - A pointer that may be nil is an [option]; dereferencing [None]
        panics ([Panicked]).
      - The read/write mutex of the registry is not modelled: every method
        holds it for its whole body, and the model runs methods one at a
        time.
      - Log output is not modelled. *)

From Stdlib Require Import ZArith Lia.
From stdpp Require Import gmap strings list fin_maps.

Local Open Scope Z_scope.

(** ** Go primitives *)

Module Go.

Definition two64 : Z := 2 ^ 64.
Definition two63 : Z := 2 ^ 63.

(** [uint64] arithmetic wraps modulo 2^64. *)
Definition wrap_u64 (z : Z) : Z := z mod two64.

(** The conversion [int64(x)] of a [uint64] keeps the bit pattern. *)
Definition to_int64 (z : Z) : Z :=
  let w := wrap_u64 z in if w <? two63 then w else w - two64.

Definition is_uint64 (z : Z) : Prop := 0 <= z < two64.
Definition is_int64 (z : Z) : Prop := - two63 <= z < two63.

(** [common.Hash] (32 bytes) and [common.Address] (20 bytes), as the
    numbers their bytes spell. *)
Definition Hash : Type := N.
Definition Address : Type := N.

(** Package time.  An instant is its number of nanoseconds since the Unix
    epoch and a [time.Duration] is an [int64] of nanoseconds; [Sub]
    saturates at the ends of the [Duration] range.  The range limits of
    [time.Time] itself are not modelled. *)
Definition time_Unix (sec nsec : Z) : Z := sec * 10 ^ 9 + nsec.
Definition time_Add (t d : Z) : Z := t + d.
Definition time_Sub (t u : Z) : Z := Z.max (- two63) (Z.min (two63 - 1) (t - u)).
Definition time_Until (now t : Z) : Z := time_Sub t now.

(** [Cmp] of [big.Int]. *)
Definition big_Cmp (x y : Z) : Z :=
  match x ?= y with Lt => -1 | Eq => 0 | Gt => 1 end.

(** Error values.  Each [errors.New]/[fmt.Errorf] site of the sources is a
    constructor that carries the values the message is formatted from;
    [ErrExternal] stands for an error produced by a collaborator outside
    of these sources (dialing, remote calls, codecs, the simulation
    engine, a cancelled context). *)
Inductive error : Type :=
| ErrExternal (msg : string)
(* miner: registry *)
| ErrRelayNotFound (relay : string)
| ErrRelayGrpcNotFound (relay : string)
(* miner: ProposedBlock *)
| ErrTooLate (endOfProposingWindow timeout : Z)
| ErrGasUsedExceeds (gasUsed currentGasLimit : Z)
| ErrGasLimitDiffers (gasLimit desiredGasLimit : Z)
| ErrSimulationFailed (cause : error)
| ErrContextTimeout (cause : error)
(* ethapi: Bid *)
| ErrBuilderNotEnabled
| ErrMissingBlockNumber
| ErrMissingParentHash
| ErrMissingGasLimit
| ErrMissingGasValue
| ErrInvalidBuilderFee
| ErrGasValueLowerThanFee
| ErrMissingBuilderAddress
| ErrWrongBuilderAddressFormat
| ErrInvalidBlockHeight (bidBlock currentBlock : Z)
| ErrInvalidParentHash (bidParent currentHash : string)
| ErrInvalidTxs (cause : error)
| ErrVerifySignature (cause : error)
| ErrInvalidSignature (expected actual : Address)
(* grpc: ProposeBlock *)
| ErrProposedMissingTxs
| ErrProposedMissingBlockNumber
| ErrProposedIncorrectBlockNumber (proposed onChain : Z) (onChainHash : Hash)
| ErrStatusInternal (cause : error).

(** A call either returns or panics. *)
Inductive panic : Type :=
| NilDereference
| PanicWith (e : error).

Inductive outcome (A : Type) : Type :=
| Returned (a : A)
| Panicked (p : panic).
Arguments Returned {A} a.
Arguments Panicked {A} p.

(** Sequencing of calls that may panic. *)
#[global] Instance outcome_ret : MRet outcome := fun A a => Returned a.
#[global] Instance outcome_bind : MBind outcome := fun A B k x =>
  match x with
  | Returned a => k a
  | Panicked p => Panicked p
  end.

(** Result of a Go function returning [(T, error)]. *)
Inductive result (A : Type) : Type :=
| Ok (a : A)
| Err (e : error).
Arguments Ok {A} a.
Arguments Err {A} e.

End Go.

Import Go.

(** ** Package miner *)

Module miner.

(** *** The relay registry, [ClientMapping] *)

Section Miner.

(** [*rpc.Client], [*grpc.ClientConn] and [pb.ProposerClient] handles. *)
Context {RpcClient GrpcConn ProposerClient : Type}.

(** [rpc.Dial], [grpc.Dial] (with the TLS credentials the source
    builds) and [pb.NewProposerClient]. *)
Variable rpcDial : string -> result RpcClient.
Variable grpcDial : string -> result GrpcConn.
Variable NewProposerClient : GrpcConn -> ProposerClient.

Record ClientMapping : Type := {
  clientMap : gmap string RpcClient;
  clientGrpcMap : gmap string ProposerClient
}.

Definition NewClientMap (relays relaysGRPC : list string) : ClientMapping :=
  let g :=
    foldl (fun (m : gmap string ProposerClient) endpoint =>
             match grpcDial endpoint with
             | Err _ => m
             | Ok conn => <[endpoint := NewProposerClient conn]> m
             end) ∅ relaysGRPC in
  let r :=
    foldl (fun (m : gmap string RpcClient) relay =>
             match rpcDial relay with
             | Err _ => m
             | Ok client => <[relay := client]> m
             end) ∅ relays in
  {| clientMap := r; clientGrpcMap := g |}.

Definition Len (c : ClientMapping) : nat := size (clientMap c).

(** [Mapping] copies the live map entry by entry. *)
Definition Mapping (c : ClientMapping) : gmap string RpcClient :=
  list_to_map (map_to_list (clientMap c)).

Definition Get (c : ClientMapping) (relay : string) : option RpcClient :=
  clientMap c !! relay.

Definition Add (c : ClientMapping) (relay : string)
  : ClientMapping * result RpcClient :=
  match rpcDial relay with
  | Err e => (c, Err e)
  | Ok client =>
      ({| clientMap := <[relay := client]> (clientMap c);
          clientGrpcMap := clientGrpcMap c |}, Ok client)
  end.

Definition Remove (c : ClientMapping) (relay : string)
  : ClientMapping * option error :=
  match clientMap c !! relay with
  | None => (c, Some (ErrRelayNotFound relay))
  | Some _ =>
      ({| clientMap := delete relay (clientMap c);
          clientGrpcMap := clientGrpcMap c |}, None)
  end.

Definition MappingGRPC (c : ClientMapping) : gmap string ProposerClient :=
  list_to_map (map_to_list (clientGrpcMap c)).

Definition LenGRPC (c : ClientMapping) : nat := size (clientGrpcMap c).

Definition AddGrpc (c : ClientMapping) (relay : string)
  : ClientMapping * result ProposerClient :=
  match grpcDial relay with
  | Err e => (c, Err e)
  | Ok conn =>
      let client := NewProposerClient conn in
      ({| clientMap := clientMap c;
          clientGrpcMap := <[relay := NewProposerClient conn]> (clientGrpcMap c) |},
       Ok client)
  end.

Definition GetGRPC (c : ClientMapping) (relay : string) : option ProposerClient :=
  clientGrpcMap c !! relay.

(** The endpoints that are members of each pool (specification only). *)
Definition members (c : ClientMapping) : gset string := dom (clientMap c).
Definition membersGRPC (c : ClientMapping) : gset string := dom (clientGrpcMap c).

Definition RemoveGrpc (c : ClientMapping) (relay : string)
  : ClientMapping * option error :=
  match clientGrpcMap c !! relay with
  | None => (c, Some (ErrRelayGrpcNotFound relay))
  | Some _ =>
      ({| clientMap := clientMap c;
          clientGrpcMap := delete relay (clientGrpcMap c) |}, None)
  end.

(** *** Config, worker and Miner: the fields the embedded methods read *)

Record Config : Type := {
  DelayLeftOver : Z;  (* time.Duration *)
  GasCeil : Z         (* uint64 *)
}.

Record worker : Type := {
  config : Config;
  chainConfig_Parlia_Period : Z;  (* uint64, seconds *)
  currentGasLimit : Z;            (* *uint64, read with atomic.LoadUint64 *)
  prevBlockGasLimit : Z           (* *uint64, read with atomic.LoadUint64 *)
}.

Record Miner : Type := {
  miner_worker : worker;
  (* miner.eth.BlockChain().CurrentBlock().Time(), uint64 seconds *)
  eth_CurrentBlock_Time : Z;
  mevRelays : ClientMapping;
  proposedBlockUri : string;
  proposedBlockGrpcUri : string;
  proposedBlockNamespace : string;
  signedProposedBlockUri : list Byte.byte
}.

Definition set_mevRelays (m : Miner) (c : ClientMapping) : Miner :=
  {| miner_worker := miner_worker m;
     eth_CurrentBlock_Time := eth_CurrentBlock_Time m;
     mevRelays := c;
     proposedBlockUri := proposedBlockUri m;
     proposedBlockGrpcUri := proposedBlockGrpcUri m;
     proposedBlockNamespace := proposedBlockNamespace m;
     signedProposedBlockUri := signedProposedBlockUri m |}.

(** *** Validator registration *)

(** [ethapi.RegisterValidatorArgs] and [pb.RegisterValidatorRequest]. *)
Record RegisterValidatorArgs : Type := {
  rva_Data : list Byte.byte;
  rva_Signature : list Byte.byte;
  rva_Namespace : string;
  rva_CommitHash : string;
  rva_GasCeil : Z
}.

Record RegisterValidatorRequest : Type := {
  rvr_Data : list Byte.byte;
  rvr_Signature : list Byte.byte;
  rvr_Namespace : string;
  rvr_CommitHash : string
}.

(** [version.CommitHash()], fixed when the binary is built. *)
Variable CommitHash : string.

(** The remote calls a broadcast issues.  Each goroutine spawned by the
    loops of [registerValidator] and [registerValidatorViaGRPC] issues
    exactly one call and then only logs, so a broadcast is the
    collection of its calls.  Go leaves the iteration order of a map
    unspecified and the goroutines run concurrently: the order of the
    list carries no meaning. *)
Inductive RegistrationCall : Type :=
| LegacyCall (dest : string) (destinationClient : RpcClient)
             (method : string) (args : RegisterValidatorArgs)
| GrpcRegisterValidator (dest : string) (destClient : ProposerClient)
                        (request : RegisterValidatorRequest).

Definition registerValidatorViaGRPC (m : Miner) : list RegistrationCall :=
  let registerValidatorArgs :=
    {| rvr_Data := String.list_byte_of_string (proposedBlockGrpcUri m);
       rvr_Signature := signedProposedBlockUri m;
       rvr_Namespace := proposedBlockNamespace m;
       rvr_CommitHash := CommitHash |} in
  (fun '(dest, destClient) =>
     GrpcRegisterValidator dest destClient registerValidatorArgs)
    <$> map_to_list (MappingGRPC (mevRelays m)).

Definition registerValidator (m : Miner) : list RegistrationCall :=
  if negb (String.eqb (proposedBlockGrpcUri m) "")
     && negb (Nat.eqb (LenGRPC (mevRelays m)) 0)
  then registerValidatorViaGRPC m
  else
    let registerValidatorArgs :=
      {| rva_Data := String.list_byte_of_string (proposedBlockUri m);
         rva_Signature := signedProposedBlockUri m;
         rva_Namespace := proposedBlockNamespace m;
         rva_CommitHash := CommitHash;
         rva_GasCeil := GasCeil (config (miner_worker m)) |} in
    (fun '(dest, destClient) =>
       LegacyCall dest destClient "eth_registerValidator" registerValidatorArgs)
      <$> map_to_list (Mapping (mevRelays m)).

(** The destinations and clients of the legacy and of the gRPC calls of a
    broadcast (specification only). *)
Definition legacyCalls (calls : list RegistrationCall) : list (string * RpcClient) :=
  omap (fun call => match call with
                    | LegacyCall dest cl _ _ => Some (dest, cl)
                    | GrpcRegisterValidator _ _ _ => None
                    end) calls.

Definition grpcCalls (calls : list RegistrationCall) : list (string * ProposerClient) :=
  omap (fun call => match call with
                    | LegacyCall _ _ _ _ => None
                    | GrpcRegisterValidator dest cl _ => Some (dest, cl)
                    end) calls.

(** [client.Call(&result, method, args)]: the error it returns. *)
Variable rpcCall : RpcClient -> string -> RegisterValidatorArgs -> option error.

Definition AddRelay (m : Miner) (relay : string) : Miner * option error :=
  match Add (mevRelays m) relay with
  | (c, Err e) => (set_mevRelays m c, Some e)
  | (c, Ok client) =>
      let registerValidatorArgs :=
        {| rva_Data := String.list_byte_of_string (proposedBlockUri m);
           rva_Signature := signedProposedBlockUri m;
           rva_Namespace := proposedBlockNamespace m;
           rva_CommitHash := CommitHash;
           rva_GasCeil := GasCeil (config (miner_worker m)) |} in
      match rpcCall client "eth_registerValidator" registerValidatorArgs with
      | Some e => (set_mevRelays m c, Some e)
      | None => (set_mevRelays m c, None)
      end
  end.

Definition RemoveRelay (m : Miner) (relay : string) : Miner * option error :=
  let '(c, e) := Remove (mevRelays m) relay in (set_mevRelays m c, e).

(** *** The proposal pipeline, [Miner.ProposedBlock] *)

(** [types.Transaction] and the simulation result [bestProposedWork]
    are opaque to the pipeline. *)
Context {Transaction bestProposedWork : Type}.

Record ProposedBlockArgs : Type := {
  pa_mevRelay : string;
  pa_blockNumber : Z;
  pa_prevBlockHash : Hash;
  pa_blockReward : Z;
  pa_gasLimit : Z;
  pa_gasUsed : Z;
  pa_txs : list Transaction;
  pa_unReverted : gset N
}.

(** The struct [ProposedBlock] sent to the worker (the method of the
    same name is [ProposedBlock] below). *)
Record ProposedBlockMsg : Type := {
  pb_args : ProposedBlockArgs;
  pb_simulatedWork : bestProposedWork;
  pb_simDuration : Z
}.

(** [core.CalcGasLimit(parentGasLimit, desiredLimit)]: its source is not
    among the files; the pipeline only compares its result. *)
Variable CalcGasLimit : Z -> Z -> Z.

(** [worker.simulateProposedBlock(proposingCtx, args)], the simulation
    engine.  The context is represented by its timeout. *)
Variable simulateProposedBlock :
  Z -> ProposedBlockArgs -> option bestProposedWork * Z * option error.

(** Outcome of the final [select]: [Some e] when [proposingCtx.Done()]
    fires first, [e] being [proposingCtx.Err()]; [None] when the worker
    takes the message from [proposedCh]. *)
Variable proposingCtx_Done : ProposedBlockMsg -> option error.

(** What a run of the pipeline does to its collaborators. *)
Inductive PipelineEvent : Type :=
| EvSimulate (timeout : Z) (args : ProposedBlockArgs)
| EvEnqueue (msg : ProposedBlockMsg).

Record ProposedBlockResult : Type := {
  simDuration : Z;
  err : option error;
  events : list PipelineEvent
}.

Definition endOfProposingWindow (m : Miner) : Z :=
  time_Add
    (time_Unix
       (to_int64 (wrap_u64 (eth_CurrentBlock_Time m
                            + chainConfig_Parlia_Period (miner_worker m)))) 0)
    (to_int64 (- DelayLeftOver (config (miner_worker m)))).

(** [now] is the clock reading taken by [time.Until]. *)
Definition ProposedBlock (m : Miner) (now : Z) (mevRelay : string)
    (blockNumber : Z) (prevBlockHash : Hash) (reward : Z)
    (gasLimit gasUsed : Z) (txs : list Transaction) (unReverted : gset N)
  : ProposedBlockResult :=
  let endOfProposingWindow := endOfProposingWindow m in
  let timeout := time_Until now endOfProposingWindow in
  if timeout <=? 0 then
    {| simDuration := 0;
       err := Some (ErrTooLate endOfProposingWindow timeout);
       events := [] |}
  else
    let currentGasLimit := currentGasLimit (miner_worker m) in
    let previousBlockGasLimit := prevBlockGasLimit (miner_worker m) in
    let isBlockSkipped := gasUsed >? currentGasLimit in
    if isBlockSkipped then
      {| simDuration := 0;
         err := Some (ErrGasUsedExceeds gasUsed currentGasLimit);
         events := [] |}
    else
      let desiredGasLimit :=
        CalcGasLimit previousBlockGasLimit (GasCeil (config (miner_worker m))) in
      if negb (desiredGasLimit =? gasLimit) then
        {| simDuration := 0;
           err := Some (ErrGasLimitDiffers gasLimit desiredGasLimit);
           events := [] |}
      else
        let args :=
          {| pa_mevRelay := mevRelay;
             pa_blockNumber := blockNumber;
             pa_prevBlockHash := prevBlockHash;
             pa_blockReward := reward;
             pa_gasLimit := gasLimit;
             pa_gasUsed := gasUsed;
             pa_txs := txs;
             pa_unReverted := unReverted |} in
        match simulateProposedBlock timeout args with
        | (_, simDuration, Some e) =>
            {| simDuration := simDuration;
               err := Some (ErrSimulationFailed e);
               events := [EvSimulate timeout args] |}
        | (None, simDuration, None) =>
            {| simDuration := simDuration;
               err := None;
               events := [EvSimulate timeout args] |}
        | (Some simWork, simDuration, None) =>
            let msg := {| pb_args := args;
                          pb_simulatedWork := simWork;
                          pb_simDuration := simDuration |} in
            match proposingCtx_Done msg with
            | Some ctxErr =>
                {| simDuration := simDuration;
                   err := Some (ErrContextTimeout ctxErr);
                   events := [EvSimulate timeout args] |}
            | None =>
                {| simDuration := simDuration;
                   err := None;
                   events := [EvSimulate timeout args; EvEnqueue msg] |}
            end
        end.

(** The argument record a run hands to the simulation engine
    (specification only; [ProposedBlock] builds it in place). *)
Definition proposalArgs (mevRelay : string) (blockNumber : Z) (prevBlockHash : Hash)
    (reward gasLimit gasUsed : Z) (txs : list Transaction) (unReverted : gset N)
  : ProposedBlockArgs :=
  {| pa_mevRelay := mevRelay; pa_blockNumber := blockNumber;
     pa_prevBlockHash := prevBlockHash; pa_blockReward := reward;
     pa_gasLimit := gasLimit; pa_gasUsed := gasUsed;
     pa_txs := txs; pa_unReverted := unReverted |}.

(** Number of times a run invoked the simulation engine, and the
    messages it put on the hand-off channel. *)
Definition simulateCalls (r : ProposedBlockResult) : nat :=
  length (omap (fun e => match e with EvSimulate _ args => Some args | _ => None end)
               (events r)).

Definition enqueued (r : ProposedBlockResult) : list ProposedBlockMsg :=
  omap (fun e => match e with EvEnqueue msg => Some msg | _ => None end)
       (events r).

End Miner.

Arguments ClientMapping : clear implicits.
Arguments Miner : clear implicits.
Arguments RegistrationCall : clear implicits.
Arguments ProposedBlockArgs : clear implicits.
Arguments ProposedBlockMsg : clear implicits.
Arguments PipelineEvent : clear implicits.
Arguments ProposedBlockResult : clear implicits.

End miner.

(** ** Package ethapi: the builder bid ingress *)

Module ethapi.

Section BuilderAPI.

(** [types.Transaction] and [ecdsa.PublicKey] are opaque here. *)
Context {Transaction PublicKey : Type}.

Record BidMessage : Type := {
  Block : Z;                 (* int64 *)
  ParentHash : string;
  Timestamp : Z;             (* int64 *)
  BuilderAddress : string;
  GasLimit : Z;              (* int64 *)
  GasValue : Z;              (* int64 *)
  BuilderFeeValue : Z;       (* int64 *)
  Txs : list (list Byte.byte)
}.

Record BidArgs : Type := {
  Message : option BidMessage;   (* *BidMessage *)
  Signature : string
}.

(** The chain head, [*types.Block]: what [Number()], [Hash()] and
    [Time()] return. *)
Record ChainBlock : Type := {
  blk_Number : Z;
  blk_Hash : Hash
}.

(** Library functions of the node the validators call:
    [common.IsHexAddress], [common.HexToAddress], [Hash.Hex],
    [Transaction.UnmarshalBinary], [rlp.EncodeToBytes],
    [hexutil.Decode], [crypto.Ecrecover], [crypto.UnmarshalPubkey] and
    [crypto.PubkeyToAddress]. *)
Variable IsHexAddress : string -> bool.
Variable HexToAddress : string -> Address.
Variable Hash_Hex : Hash -> string.
Variable UnmarshalBinary : list Byte.byte -> result Transaction.
Variable rlp_EncodeToBytes : option BidMessage -> result (list Byte.byte).
Variable hexutil_Decode : string -> result (list Byte.byte).
Variable Ecrecover : list Byte.byte -> list Byte.byte -> result (list Byte.byte).
Variable UnmarshalPubkey : list Byte.byte -> result PublicKey.
Variable PubkeyToAddress : PublicKey -> Address.

(** [hexutil.MustDecode] is [hexutil.Decode] that panics with the error
    instead of returning it. *)
Definition hexutil_MustDecode (input : string) : outcome (list Byte.byte) :=
  match hexutil_Decode input with
  | Ok dec => Returned dec
  | Err e => Panicked (PanicWith e)
  end.

(** Reading a field through [args.Message]. *)
Definition deref {A : Type} (p : option A) : outcome A :=
  match p with
  | Some a => Returned a
  | None => Panicked NilDereference
  end.

Definition checkBasic (args : BidArgs) : outcome (option error) :=
  msg ← deref (Message args) ;
  if Block msg =? 0 then Returned (Some ErrMissingBlockNumber)
  else if String.eqb (ParentHash msg) "" then Returned (Some ErrMissingParentHash)
  else if GasLimit msg <=? 0 then Returned (Some ErrMissingGasLimit)
  else if GasValue msg <=? 0 then Returned (Some ErrMissingGasValue)
  else if BuilderFeeValue msg <? 0 then Returned (Some ErrInvalidBuilderFee)
  else if GasValue msg <=? BuilderFeeValue msg then
         Returned (Some ErrGasValueLowerThanFee)
  else if String.eqb (BuilderAddress msg) "" then
         Returned (Some ErrMissingBuilderAddress)
  else if negb (IsHexAddress (BuilderAddress msg)) then
         Returned (Some ErrWrongBuilderAddressFormat)
  else Returned None.

(** The loop of [checkBlock] over [args.Message.Txs]. *)
Fixpoint decodeTxs (encoded : list (list Byte.byte)) (txs : list Transaction)
  : result (list Transaction) :=
  match encoded with
  | [] => Ok txs
  | encodedTx :: rest =>
      match UnmarshalBinary encodedTx with
      | Err e => Err (ErrInvalidTxs e)
      | Ok tx => decodeTxs rest (txs ++ [tx])
      end
  end.

Definition checkBlock (args : BidArgs) (currentBlock : ChainBlock)
  : outcome (result (list Transaction)) :=
  msg ← deref (Message args) ;
  let bidBlockHeight := Block msg in
  if negb (big_Cmp bidBlockHeight (blk_Number currentBlock + 1) =? 0) then
    Returned (Err (ErrInvalidBlockHeight (Block msg) (blk_Number currentBlock)))
  else if negb (String.eqb (ParentHash msg) (Hash_Hex (blk_Hash currentBlock))) then
    Returned (Err (ErrInvalidParentHash (ParentHash msg)
                                        (Hash_Hex (blk_Hash currentBlock))))
  else Returned (decodeTxs (Txs msg) []).

Definition checkSignature (args : BidArgs) : outcome (option error) :=
  match rlp_EncodeToBytes (Message args) with
  | Err e => Returned (Some (ErrVerifySignature e))
  | Ok hash =>
      sig ← hexutil_MustDecode (Signature args) ;
      match Ecrecover hash sig with
      | Err e => Returned (Some (ErrVerifySignature e))
      | Ok sigPublicKey =>
          match UnmarshalPubkey sigPublicKey with
          | Err e => Returned (Some (ErrVerifySignature e))
          | Ok pk =>
              let expected := PubkeyToAddress pk in
              msg ← deref (Message args) ;
              let actual := HexToAddress (BuilderAddress msg) in
              if negb (N.eqb expected actual) then
                Returned (Some (ErrInvalidSignature expected actual))
              else Returned None
          end
      end
  end.

(** The [Backend] interface, as far as the ingress paths call it.  The
    context argument of [Bid] and [ProposedBlock] is left out. *)
Record Backend : Type := {
  BuilderEnabled : bool;
  CurrentBlock : ChainBlock;
  Backend_Bid : Address -> Z -> list Transaction -> Z -> Z -> Z -> option error;
  Backend_ProposedBlock :
    string -> Z -> Hash -> Z -> Z -> Z -> list Transaction -> gset N
    -> Z * option error
}.

(** The backend methods a run called, in order. *)
Inductive BackendCall : Type :=
| CallBuilderEnabled
| CallCurrentBlock
| CallBid (builder : Address) (block : Z) (txs : list Transaction)
          (gasValue builderFeeValue gasLimit : Z)
| CallProposedBlock (mevRelay : string) (blockNumber : Z) (prevBlockHash : Hash)
                    (reward gasLimit gasUsed : Z) (txs : list Transaction)
                    (unReverted : gset N).

Definition Bid (b : Backend) (args : BidArgs)
  : list BackendCall * outcome (option error) :=
  let enabled := BuilderEnabled b in
  if negb enabled then ([CallBuilderEnabled], Returned (Some ErrBuilderNotEnabled))
  else
    match checkBasic args with
    | Panicked p => ([CallBuilderEnabled], Panicked p)
    | Returned (Some e) => ([CallBuilderEnabled], Returned (Some e))
    | Returned None =>
        let currentBlock := CurrentBlock b in
        let calls := [CallBuilderEnabled; CallCurrentBlock] in
        match checkBlock args currentBlock with
        | Panicked p => (calls, Panicked p)
        | Returned (Err e) => (calls, Returned (Some e))
        | Returned (Ok txs) =>
            match checkSignature args with
            | Panicked p => (calls, Panicked p)
            | Returned (Some e) => (calls, Returned (Some e))
            | Returned None =>
                match deref (Message args) with
                | Panicked p => (calls, Panicked p)
                | Returned msg =>
                    let builder := HexToAddress (BuilderAddress msg) in
                    (calls ++ [CallBid builder (Block msg) txs (GasValue msg)
                                       (BuilderFeeValue msg) (GasLimit msg)],
                     Returned (Backend_Bid b builder (Block msg) txs (GasValue msg)
                                           (BuilderFeeValue msg) (GasLimit msg)))
                end
            end
        end
    end.

End BuilderAPI.

Arguments BidMessage : clear implicits.
Arguments BidArgs : clear implicits.
Arguments Backend : clear implicits.
Arguments BackendCall : clear implicits.

End ethapi.

(** ** Package grpc: the relay block-proposal ingress *)

Module grpc.

Section Proposer.

Context {Transaction : Type}.

(** [pb.ProposeBlockRequest]; the handler always receives a request
    value, so [in] is not an [option]. *)
Record ProposeBlockRequest : Type := {
  Payload : list (list Byte.byte);
  BlockNumber : Z;        (* uint64 *)
  PrevBlockHash : string;
  BlockReward : Z;        (* uint64 *)
  GasLimit : Z;           (* uint64 *)
  GasUsed : Z;            (* uint64 *)
  MevRelay : string
}.

(** [pb.ProposeBlockResponse]; the two timestamps are kept as the clock
    readings the source formats. *)
Record ProposeBlockResponse : Type := {
  ReceivedAt : Z;
  SimulatedDuration : Z;
  ResponseSentAt : Z
}.

Record Proposer : Type := {
  backend : ethapi.Backend Transaction
}.

(** [Transaction.UnmarshalBinary] and [common.HexToHash]. *)
Variable UnmarshalBinary : list Byte.byte -> result Transaction.
Variable HexToHash : string -> Hash.

(** The loop of [ProposeBlock] over [in.Payload]. *)
Fixpoint decodePayload (payload : list (list Byte.byte)) (txs : list Transaction)
  : result (list Transaction) :=
  match payload with
  | [] => Ok txs
  | encodedTx :: rest =>
      match UnmarshalBinary encodedTx with
      | Err e => Err e
      | Ok tx => decodePayload rest (txs ++ [tx])
      end
  end.

(** [receivedAt] and [responseSentAt] are the two readings of
    [time.Now()]. *)
Definition ProposeBlock (p : Proposer) (receivedAt responseSentAt : Z)
    (in_ : ProposeBlockRequest)
  : list (ethapi.BackendCall Transaction) * result ProposeBlockResponse :=
  if Nat.eqb (length (Payload in_)) 0 then ([], Err ErrProposedMissingTxs)
  else if BlockNumber in_ =? 0 then ([], Err ErrProposedMissingBlockNumber)
  else
    let blockOnChain := ethapi.CurrentBlock (backend p) in
    let proposedBlockNumber := BlockNumber in_ in
    if big_Cmp proposedBlockNumber (ethapi.blk_Number blockOnChain) <? 1 then
      ([ethapi.CallCurrentBlock],
       Err (ErrProposedIncorrectBlockNumber (BlockNumber in_)
              (ethapi.blk_Number blockOnChain) (ethapi.blk_Hash blockOnChain)))
    else
      match decodePayload (Payload in_) [] with
      | Err e => ([ethapi.CallCurrentBlock], Err e)
      | Ok txs =>
          let unRevertedHashes : gset N := ∅ in
          let call :=
            ethapi.CallProposedBlock (MevRelay in_) (BlockNumber in_)
              (HexToHash (PrevBlockHash in_)) (BlockReward in_)
              (GasLimit in_) (GasUsed in_) txs unRevertedHashes in
          match ethapi.Backend_ProposedBlock (backend p) (MevRelay in_)
                  (BlockNumber in_) (HexToHash (PrevBlockHash in_))
                  (BlockReward in_) (GasLimit in_) (GasUsed in_) txs
                  unRevertedHashes with
          | (_, Some e) =>
              ([ethapi.CallCurrentBlock; call], Err (ErrStatusInternal e))
          | (simDuration, None) =>
              ([ethapi.CallCurrentBlock; call],
               Ok {| ReceivedAt := receivedAt;
                     SimulatedDuration := simDuration;
                     ResponseSentAt := responseSentAt |})
          end
      end.

(** Whether a run reached the pipeline. *)
Definition pipelineCalls (calls : list (ethapi.BackendCall Transaction)) : nat :=
  length (omap (fun c => match c with
                         | ethapi.CallProposedBlock r _ _ _ _ _ _ _ => Some r
                         | _ => None
                         end) calls).

End Proposer.

Arguments Proposer : clear implicits.

End grpc.

(** ** Package version: the commit hash of the build *)

Module version.

(** [debug.BuildSetting]. *)
Record BuildSetting : Type := {
  Key : string;
  Value : string
}.

(** The loop over [info.Settings]: it returns at the first setting whose
    key is [vcs.revision]. *)
Fixpoint firstRevision (settings : list BuildSetting) : option string :=
  match settings with
  | [] => None
  | setting :: rest =>
      if String.eqb (Key setting) "vcs.revision" then Some (Value setting)
      else firstRevision rest
  end.

(** [buildInfo] is what [debug.ReadBuildInfo()] returns: the settings of
    the build, or [None] when it reports [ok = false]. *)
Definition commitHash (buildInfo : option (list BuildSetting)) : string :=
  match buildInfo with
  | Some settings =>
      match firstRevision settings with
      | Some revision => revision
      | None => ""
      end
  | None => ""
  end.

Definition CommitHash (buildInfo : option (list BuildSetting)) : string :=
  commitHash buildInfo.

End version.

(** ** Package grpc: the server wrapper and its authentication *)

Module grpcapi.

Section API.

(** The proposer, the [grpc.Server], the requests and what a handler
    returns are opaque here. *)
Context {ProposerT Server Req HandlerResult : Type}.

(** [base64.StdEncoding.EncodeToString]. *)
Variable base64_EncodeToString : list Byte.byte -> string.

Record API : Type := {
  proposer : ProposerT;
  listenAddr : string;
  authHeader : string;
  server : option Server
}.

Definition encodeNodeSecret (user secret : string) : string :=
  let data := user +:+ ":" +:+ secret in
  base64_EncodeToString (String.list_byte_of_string data).

Definition NewAPI (proposer : ProposerT) (listenAddr nodeID secret : string) : API :=
  let authHeader :=
    if negb (String.eqb nodeID "") && negb (String.eqb secret "")
    then encodeNodeSecret nodeID secret
    else "" in
  {| proposer := proposer;
     listenAddr := listenAddr;
     authHeader := authHeader;
     server := None |}.

(** The errors of the interceptor. *)
Inductive AuthError : Type :=
| ErrCouldNotReadMetadata
| ErrEmptyAuthHeader
| ErrIncorrectAuthHeader.

(** A request is turned away with an error or let through with a value. *)
Inductive checked (A : Type) : Type :=
| Pass (a : A)
| Reject (e : AuthError).
Arguments Pass {A} a.
Arguments Reject {A} e.

(** The incoming context, as far as the interceptor reads it: what
    [metadata.FromIncomingContext] returns, [None] when it reports
    [ok = false]; [md.Get(key)] is the list stored under the key, empty
    when there is none. *)
Definition readAuthMetadata (ctx : option (gmap string (list string))) : checked string :=
  match ctx with
  | None => Reject ErrCouldNotReadMetadata
  | Some md =>
      let values := default [] (md !! "authorization") in
      match values with
      | [] => Reject ErrEmptyAuthHeader
      | first :: _ => Pass first
      end
  end.

Definition authenticate (a : API) (ctx : option (gmap string (list string)))
    (req : Req)
    (handler : option (gmap string (list string)) -> Req -> HandlerResult)
  : checked HandlerResult :=
  if negb (String.eqb (authHeader a) "") then
    match readAuthMetadata ctx with
    | Reject e => Reject e
    | Pass auth =>
        if negb (String.eqb auth (authHeader a)) then Reject ErrIncorrectAuthHeader
        else Pass (handler ctx req)
    end
  else Pass (handler ctx req).

End API.

Arguments API : clear implicits.
Arguments Pass {A} a.
Arguments Reject {A} e.

End grpcapi.

(** ** Package miner: the event loop [Miner.update] *)

Module minerloop.

Section Update.

(** [params.BSCChainConfig.Parlia.Epoch], a [uint64]. *)
Variable Epoch : Z.

Inductive DownloaderEvent : Type :=
| StartEvent
| DoneEvent
| FailedEvent.

(** What one iteration of the [select] receives.  [RecvDlEvent None] is
    the nil event of a closed subscription; [mining] is what
    [miner.Mining()] answers while a [StartEvent] is handled. *)
Inductive Received : Type :=
| RecvDlEvent (ev : option DownloaderEvent) (mining : bool)
| RecvStart (addr : Address)
| RecvChainBlock (number : Z)
| RecvStop
| RecvExit
| RecvChainBlockSubErr.

(** The calls the loop makes on its collaborators. *)
Inductive Action : Type :=
| CallRegisterValidator
| WorkerStart
| WorkerStop
| WorkerClose
| WorkerSetEtherbase (addr : Address)
| EventsUnsubscribe
| ChainBlockSubUnsubscribe
| WgDone.

(** The local variables of [update], the field [miner.coinbase], and
    whether the loop has unsubscribed from the downloader events.
    [dlEventCh] is [false] once the variable is set to nil. *)
Record LoopState : Type := {
  shouldStart : bool;
  canStart : bool;
  dlEventCh : bool;
  coinbase : Address;
  eventsClosed : bool
}.

Definition initial (coinbase0 : Address) : LoopState :=
  {| shouldStart := false; canStart := true; dlEventCh := true;
     coinbase := coinbase0; eventsClosed := false |}.

(** The deferred calls, in the order they run when [update] returns. *)
Definition deferred (s : LoopState) : list Action :=
  [ChainBlockSubUnsubscribe]
  ++ (if eventsClosed s then [] else [EventsUnsubscribe])
  ++ [WgDone].

(** [miner.SetEtherbase(miner.coinbase); miner.worker.start()]. *)
Definition restart (s : LoopState) : list Action :=
  if shouldStart s then [WorkerSetEtherbase (coinbase s); WorkerStart] else [].

(** One iteration: the new state, the calls made, and whether [update]
    returned.  A receive on the nil [dlEventCh] never fires: the state is
    left as it is. *)
Definition step (s : LoopState) (r : Received) : outcome (LoopState * list Action * bool) :=
  match r with
  | RecvDlEvent ev mining =>
      if negb (dlEventCh s) then Returned (s, [], false)
      else
        match ev with
        | None =>
            Returned ({| shouldStart := shouldStart s; canStart := canStart s;
                         dlEventCh := false; coinbase := coinbase s;
                         eventsClosed := eventsClosed s |}, [], false)
        | Some StartEvent =>
            let wasMining := mining in
            Returned ({| shouldStart := if wasMining then true else shouldStart s;
                         canStart := false;
                         dlEventCh := dlEventCh s; coinbase := coinbase s;
                         eventsClosed := eventsClosed s |}, [WorkerStop], false)
        | Some FailedEvent =>
            Returned ({| shouldStart := shouldStart s; canStart := true;
                         dlEventCh := dlEventCh s; coinbase := coinbase s;
                         eventsClosed := eventsClosed s |}, restart s, false)
        | Some DoneEvent =>
            Returned ({| shouldStart := shouldStart s; canStart := true;
                         dlEventCh := dlEventCh s; coinbase := coinbase s;
                         eventsClosed := true |},
                      restart s ++ [EventsUnsubscribe], false)
        end
  | RecvStart addr =>
      Returned ({| shouldStart := true; canStart := canStart s;
                   dlEventCh := dlEventCh s; coinbase := addr;
                   eventsClosed := eventsClosed s |},
                [WorkerSetEtherbase addr] ++ (if canStart s then [WorkerStart] else []),
                false)
  | RecvChainBlock number =>
      if Epoch =? 0 then Panicked (PanicWith (ErrExternal "integer divide by zero"))
      else if number mod Epoch =? 0 then Returned (s, [CallRegisterValidator], false)
      else Returned (s, [], false)
  | RecvStop =>
      Returned ({| shouldStart := false; canStart := canStart s;
                   dlEventCh := dlEventCh s; coinbase := coinbase s;
                   eventsClosed := eventsClosed s |}, [WorkerStop], false)
  | RecvExit => Returned (s, [WorkerClose] ++ deferred s, true)
  | RecvChainBlockSubErr => Returned (s, deferred s, true)
  end.

(** The loop from state [s] over what it receives, until it returns. *)
Fixpoint loop (s : LoopState) (received : list Received)
  : outcome (LoopState * list Action * bool) :=
  match received with
  | [] => Returned (s, [], false)
  | r :: rest =>
      '(s1, acts1, returned) ← step s r;
      if (returned : bool) then Returned (s1, acts1, true)
      else
        '(s2, acts2, returned2) ← loop s1 rest;
        Returned (s2, acts1 ++ acts2, returned2)
  end.

(** [update]: the registration made on entry, then the loop.  The two
    subscriptions made on entry are not recorded. *)
Definition update (coinbase0 : Address) (received : list Received)
  : outcome (LoopState * list Action * bool) :=
  '(s, acts, returned) ← loop (initial coinbase0) received;
  Returned (s, CallRegisterValidator :: acts, returned).

(** Specification only: whether a receive makes [update] return, the
    receives up to the first that does, the number of epoch blocks among
    them, and the number of registrations among the calls. *)
Definition returns (r : Received) : bool :=
  match r with
  | RecvExit | RecvChainBlockSubErr => true
  | _ => false
  end.

Fixpoint handled (received : list Received) : list Received :=
  match received with
  | [] => []
  | r :: rest => if returns r then [r] else r :: handled rest
  end.

Definition epochBlocks (received : list Received) : nat :=
  length (omap (fun r => match r with
                         | RecvChainBlock number =>
                             if number mod Epoch =? 0 then Some number else None
                         | _ => None
                         end) received).

Definition registrations (acts : list Action) : nat :=
  length (omap (fun a => match a with
                         | CallRegisterValidator => Some a
                         | _ => None
                         end) acts).

Definition workerStarts (acts : list Action) : nat :=
  length (omap (fun a => match a with
                         | WorkerStart => Some a
                         | _ => None
                         end) acts).

(** A downloader event that ends a sync. *)
Definition endsSync (r : Received) : bool :=
  match r with
  | RecvDlEvent (Some DoneEvent) _ | RecvDlEvent (Some FailedEvent) _ => true
  | _ => false
  end.

End Update.

End minerloop.

(** ** Sample data, used to instantiate the theorems below *)

Module Samples.

(** Client handles are numbers; every dial succeeds with handle 7. *)
Definition dial (relay : string) : result nat := Ok 7%nat.
Definition newClient (conn : nat) : nat := conn.

Definition registry_empty : miner.ClientMapping nat nat :=
  {| miner.clientMap := ∅; miner.clientGrpcMap := ∅ |}.

Definition registry_a : miner.ClientMapping nat nat :=
  {| miner.clientMap := {["relay-a" := 1%nat]}; miner.clientGrpcMap := ∅ |}.

Definition registry_ag : miner.ClientMapping nat nat :=
  {| miner.clientMap := {["relay-a" := 1%nat]};
     miner.clientGrpcMap := {["relay-g" := 2%nat]} |}.

(** The registration call is refused. *)
Definition callFails (client : nat) (method : string)
    (args : miner.RegisterValidatorArgs) : option error :=
  Some (ErrExternal "connection refused").

(** A miner on a chain with 3-second slots whose head was sealed at
    1700000000 s, reserving 50 ms to finalize a block. *)
Definition sample_worker : miner.worker :=
  {| miner.config := {| miner.DelayLeftOver := 50000000;
                        miner.GasCeil := 30000000 |};
     miner.chainConfig_Parlia_Period := 3;
     miner.currentGasLimit := 8000000;
     miner.prevBlockGasLimit := 30000000 |}.

Definition miner_with (c : miner.ClientMapping nat nat) (grpcUri : string)
  : miner.Miner nat nat :=
  {| miner.miner_worker := sample_worker;
     miner.eth_CurrentBlock_Time := 1700000000;
     miner.mevRelays := c;
     miner.proposedBlockUri := "http://validator:8545";
     miner.proposedBlockGrpcUri := grpcUri;
     miner.proposedBlockNamespace := "eth";
     miner.signedProposedBlockUri := [] |}.

(** The deadline of [miner_with] is 1700000002.95 s; one instant a
    millisecond after it and one well before it. *)
Definition now_late : Z := 1700000002951000000.
Definition now_early : Z := 1700000001000000000.

(** Stand-ins for the collaborators of the pipeline; transactions and
    simulation results are numbers.  [calcGasLimit] stands for
    [core.CalcGasLimit] on a chain whose limit sits at the ceiling. *)
Definition calcGasLimit (parentGasLimit desiredLimit : Z) : Z := desiredLimit.

Definition simulateSkips (timeout : Z) (args : miner.ProposedBlockArgs nat)
  : option nat * Z * option error := (None, 50000000, None).

Definition workerTakes (msg : miner.ProposedBlockMsg nat nat) : option error := None.

(** Stand-ins for the library functions of the bid ingress. *)
Definition isHexAddress (s : string) : bool := Nat.eqb (String.length s) 42.
Definition hexToAddress (s : string) : Address := 1%N.
Definition hashHex (h : Hash) : string := "0xab".
Definition unmarshalBinary (encoded : list Byte.byte) : result nat := Ok (length encoded).
Definition rlpEncode (msg : option ethapi.BidMessage) : result (list Byte.byte) := Ok [].
Definition hexDecode (input : string) : result (list Byte.byte) :=
  if String.prefix "0x" input then Ok []
  else Err (ErrExternal "hex string without 0x prefix").
Definition ecrecover (hash sig : list Byte.byte) : result (list Byte.byte) := Ok [].
Definition unmarshalPubkey (pub : list Byte.byte) : result nat := Ok 0%nat.
Definition pubkeyToAddress (pk : nat) : Address := 1%N.

(** A backend with the builder API enabled and head number 100. *)
Definition backend_enabled : ethapi.Backend nat :=
  {| ethapi.BuilderEnabled := true;
     ethapi.CurrentBlock := {| ethapi.blk_Number := 100; ethapi.blk_Hash := 171%N |};
     ethapi.Backend_Bid := fun _ _ _ _ _ _ => None;
     ethapi.Backend_ProposedBlock := fun _ _ _ _ _ _ _ _ => (50000000, None) |}.

(** A bid for block 101 on top of the head; [fee] is its builder fee. *)
Definition bid_with_fee (fee : Z) : ethapi.BidMessage :=
  {| ethapi.Block := 101;
     ethapi.ParentHash := "0xab";
     ethapi.Timestamp := 1700000003;
     ethapi.BuilderAddress := "0x00000000000000000000000000000000000000b1";
     ethapi.GasLimit := 30000000;
     ethapi.GasValue := 100;
     ethapi.BuilderFeeValue := fee;
     ethapi.Txs := [] |}.

(** A relay request for block [n] carrying one transaction. *)
Definition request_for (n : Z) : grpc.ProposeBlockRequest :=
  {| grpc.Payload := [[Byte.x01]];
     grpc.BlockNumber := n;
     grpc.PrevBlockHash := "0xab";
     grpc.BlockReward := 1;
     grpc.GasLimit := 30000000;
     grpc.GasUsed := 5000000;
     grpc.MevRelay := "relay-g" |}.

End Samples.

(** ** More sample data *)

Module MoreSamples.

(** A simulation engine that fails, and one that returns work. *)
Definition simulateFails (timeout : Z) (args : miner.ProposedBlockArgs nat)
  : option nat * Z * option error := (None, 7000000, Some (ErrExternal "bad block")).

Definition simulateWorks (timeout : Z) (args : miner.ProposedBlockArgs nat)
  : option nat * Z * option error := (Some 5%nat, 50000000, None).

(** A decoder that rejects every transaction. *)
Definition unmarshalNothing (encoded : list Byte.byte) : result nat :=
  Err (ErrExternal "typed transaction too short").

(** What the event loop receives: a sync starts while the miner is
    mining, a start request and an epoch block arrive during the sync. *)
Definition during_sync : list minerloop.Received :=
  [minerloop.RecvStart 9%N; minerloop.RecvChainBlock 400].

(** Two epoch blocks around the exit of the loop, for an epoch of 200. *)
Definition until_exit : list minerloop.Received :=
  [minerloop.RecvChainBlock 400; minerloop.RecvChainBlock 401;
   minerloop.RecvExit; minerloop.RecvChainBlock 600].

End MoreSamples.

(** * Properties *)

Import miner.

(** ** The relay registry *)

Section RegistryProperties.

Context {RpcClient GrpcConn ProposerClient : Type}.
Variable rpcDial : string -> result RpcClient.
Variable grpcDial : string -> result GrpcConn.
Variable NewProposerClient : GrpcConn -> ProposerClient.

Implicit Types c : ClientMapping RpcClient ProposerClient.

Lemma Len_members c : Len c = size (members c).
Proof. unfold Len, members. by rewrite size_dom. Qed.

Lemma LenGRPC_members c : LenGRPC c = size (membersGRPC c).
Proof. unfold LenGRPC, membersGRPC. by rewrite size_dom. Qed.

Lemma Get_members c relay : relay ∈ members c ↔ is_Some (Get c relay).
Proof. unfold members, Get. apply elem_of_dom. Qed.

Lemma GetGRPC_members c relay : relay ∈ membersGRPC c ↔ is_Some (GetGRPC c relay).
Proof. unfold membersGRPC, GetGRPC. apply elem_of_dom. Qed.

Lemma Mapping_copy c : Mapping c = clientMap c.
Proof. apply list_to_map_to_list. Qed.

Lemma MappingGRPC_copy c : MappingGRPC c = clientGrpcMap c.
Proof. apply list_to_map_to_list. Qed.

Lemma union_singleton_difference (x : string) (X : gset string) :
  ({[x]} ∪ X) ∖ {[x]} = X ∖ {[x]}.
Proof. apply set_eq. intros y. rewrite !elem_of_difference, elem_of_union. tauto. Qed.

(** [Remove] on an absent endpoint. *)
Lemma Remove_absent c relay :
  Get c relay = None -> Remove c relay = (c, Some (ErrRelayNotFound relay)).
Proof. unfold Get, Remove. by intros ->. Qed.

Lemma RemoveGrpc_absent c relay :
  GetGRPC c relay = None ->
  RemoveGrpc c relay = (c, Some (ErrRelayGrpcNotFound relay)).
Proof. unfold GetGRPC, RemoveGrpc. by intros ->. Qed.

(** [Remove] on a present endpoint. *)
Lemma Remove_present c relay :
  is_Some (Get c relay) ->
  exists c', Remove c relay = (c', None)
    /\ members c' = members c ∖ {[relay]}
    /\ clientGrpcMap c' = clientGrpcMap c
    /\ Get c' relay = None
    /\ Len c' = pred (Len c).
Proof.
  unfold Get, Remove, Len, members. intros Hp.
  destruct Hp as [x Hx]. rewrite Hx. eexists. split; [reflexivity|]. simpl.
  rewrite dom_delete_L, lookup_delete_eq, map_size_delete_Some by eauto. done.
Qed.

Lemma RemoveGrpc_present c relay :
  is_Some (GetGRPC c relay) ->
  exists c', RemoveGrpc c relay = (c', None)
    /\ membersGRPC c' = membersGRPC c ∖ {[relay]}
    /\ clientMap c' = clientMap c
    /\ GetGRPC c' relay = None
    /\ LenGRPC c' = pred (LenGRPC c).
Proof.
  unfold GetGRPC, RemoveGrpc, LenGRPC, membersGRPC. intros Hp.
  destruct Hp as [x Hx]. rewrite Hx. eexists. split; [reflexivity|]. simpl.
  rewrite dom_delete_L, lookup_delete_eq, map_size_delete_Some by eauto. done.
Qed.

(** A successful [Add]: the endpoint becomes a member, bound to the client
    just dialled; the count grows only if the endpoint was absent. *)
Lemma Add_ok c relay client :
  rpcDial relay = Ok client ->
  exists c', Add rpcDial c relay = (c', Ok client)
    /\ members c' = {[relay]} ∪ members c
    /\ clientGrpcMap c' = clientGrpcMap c
    /\ Get c' relay = Some client
    /\ Len c' = (if Get c relay is Some _ then Len c else S (Len c)).
Proof.
  unfold Add, Get, Len, members. intros ->. eexists. split; [reflexivity|]. simpl.
  rewrite dom_insert_L, lookup_insert_eq, map_size_insert.
  by destruct (clientMap c !! relay).
Qed.

Lemma AddGrpc_ok c relay conn :
  grpcDial relay = Ok conn ->
  exists c', AddGrpc grpcDial NewProposerClient c relay = (c', Ok (NewProposerClient conn))
    /\ membersGRPC c' = {[relay]} ∪ membersGRPC c
    /\ clientMap c' = clientMap c
    /\ GetGRPC c' relay = Some (NewProposerClient conn)
    /\ LenGRPC c' = (if GetGRPC c relay is Some _ then LenGRPC c else S (LenGRPC c)).
Proof.
  unfold AddGrpc, GetGRPC, LenGRPC, membersGRPC. intros ->.
  eexists. split; [reflexivity|]. simpl.
  rewrite dom_insert_L, lookup_insert_eq, map_size_insert.
  by destruct (clientGrpcMap c !! relay).
Qed.

(** A failed dial leaves the registry as it was. *)
Lemma Add_dial_error c relay e :
  rpcDial relay = Err e -> Add rpcDial c relay = (c, Err e).
Proof. unfold Add. by intros ->. Qed.

(** Removing a freshly added endpoint that was absent before gives back
    the registry from before the [Add]. *)
Lemma Remove_Add_fresh c relay client :
  rpcDial relay = Ok client ->
  Get c relay = None ->
  Remove (Add rpcDial c relay).1 relay = (c, None).
Proof.
  unfold Add, Remove, Get. intros -> Hn. simpl. rewrite lookup_insert_eq.
  rewrite delete_insert_eq, delete_id by done. by destruct c.
Qed.

Lemma RemoveGrpc_AddGrpc_fresh c relay conn :
  grpcDial relay = Ok conn ->
  GetGRPC c relay = None ->
  RemoveGrpc (AddGrpc grpcDial NewProposerClient c relay).1 relay = (c, None).
Proof.
  unfold AddGrpc, RemoveGrpc, GetGRPC. intros -> Hn. simpl. rewrite lookup_insert_eq.
  rewrite delete_insert_eq, delete_id by done. by destruct c.
Qed.

(** C9 (as amended).  [Remove] of an endpoint that is not in the pool of
    the given kind returns the not-found error and leaves the registry
    unchanged.  After a successful [Add] the endpoint is a member and
    [Remove] succeeds, leaving it absent with a count one below the count
    after the [Add]; this is the count from before the [Add] when the
    endpoint was absent then (the registry is then the one from before the
    [Add]).  After each operation the count is the number of members. *)
Theorem Remove_after_Add_count c relay :
  (Get c relay = None -> Remove c relay = (c, Some (ErrRelayNotFound relay)))
  /\ (GetGRPC c relay = None ->
      RemoveGrpc c relay = (c, Some (ErrRelayGrpcNotFound relay)))
  /\ (forall client, rpcDial relay = Ok client ->
      exists c1 c2,
        Add rpcDial c relay = (c1, Ok client)
        /\ members c1 = {[relay]} ∪ members c /\ Len c1 = size (members c1)
        /\ Remove c1 relay = (c2, None)
        /\ members c2 = members c ∖ {[relay]} /\ Len c2 = size (members c2)
        /\ Len c2 = pred (Len c1)
        /\ (Get c relay = None -> c2 = c /\ Len c2 = Len c))
  /\ (forall conn, grpcDial relay = Ok conn ->
      exists c1 c2,
        AddGrpc grpcDial NewProposerClient c relay = (c1, Ok (NewProposerClient conn))
        /\ membersGRPC c1 = {[relay]} ∪ membersGRPC c
        /\ LenGRPC c1 = size (membersGRPC c1)
        /\ RemoveGrpc c1 relay = (c2, None)
        /\ membersGRPC c2 = membersGRPC c ∖ {[relay]}
        /\ LenGRPC c2 = size (membersGRPC c2)
        /\ LenGRPC c2 = pred (LenGRPC c1)
        /\ (GetGRPC c relay = None -> c2 = c /\ LenGRPC c2 = LenGRPC c)).
Proof.
  split; [apply Remove_absent|]. split; [apply RemoveGrpc_absent|]. split.
  - intros client Hd.
    destruct (Add_ok c relay client Hd) as (c1 & Ha & Hm1 & _ & Hg1 & _).
    destruct (Remove_present c1 relay) as (c2 & Hr & Hm2 & _ & _ & Hl2).
    { rewrite Hg1. eauto. }
    exists c1, c2. split_and!; auto using Len_members.
    + rewrite Hm2, Hm1. apply union_singleton_difference.
    + intros Hn. pose proof (Remove_Add_fresh c relay client Hd Hn) as Hf.
      rewrite Ha in Hf. simpl in Hf. split; congruence.
  - intros conn Hd.
    destruct (AddGrpc_ok c relay conn Hd) as (c1 & Ha & Hm1 & _ & Hg1 & _).
    destruct (RemoveGrpc_present c1 relay) as (c2 & Hr & Hm2 & _ & _ & Hl2).
    { rewrite Hg1. eauto. }
    exists c1, c2. split_and!; auto using LenGRPC_members.
    + rewrite Hm2, Hm1. apply union_singleton_difference.
    + intros Hn. pose proof (RemoveGrpc_AddGrpc_fresh c relay conn Hd Hn) as Hf.
      rewrite Ha in Hf. simpl in Hf. split; congruence.
Qed.

End RegistryProperties.

(** An endpoint that is absent is not found, and adding then removing it
    gives back the empty registry. *)
Lemma Remove_after_Add_count_witness :
  Remove Samples.registry_empty "relay-a"
    = (Samples.registry_empty, Some (ErrRelayNotFound "relay-a"))
  /\ exists c1 c2,
       Add Samples.dial Samples.registry_empty "relay-a" = (c1, Ok 7%nat)
       /\ Remove c1 "relay-a" = (c2, None)
       /\ Len c2 = Len Samples.registry_empty.
Proof.
  pose proof (Remove_after_Add_count Samples.dial Samples.dial Samples.newClient
                Samples.registry_empty "relay-a") as (Habs & _ & Hadd & _).
  split; [apply Habs; reflexivity|].
  destruct (Hadd 7%nat eq_refl) as (c1 & c2 & Ha & _ & _ & Hr & _ & _ & _ & Hfresh).
  exists c1, c2. split; [exact Ha|]. split; [exact Hr|].
  apply Hfresh. reflexivity.
Defined.

(** C9 as stated fails when the endpoint is already a member: [Add]
    replaces its client without changing the count, and the [Remove] that
    follows ends one below the count from before the [Add]. *)
Lemma Remove_after_Add_count_counterexample :
  (Add Samples.dial Samples.registry_a "relay-a").2 = Ok 7%nat
  /\ (Remove (Add Samples.dial Samples.registry_a "relay-a").1 "relay-a").2 = None
  /\ Len Samples.registry_a = 1%nat
  /\ Len (Remove (Add Samples.dial Samples.registry_a "relay-a").1 "relay-a").1 = 0%nat
  /\ Len (Remove (Add Samples.dial Samples.registry_a "relay-a").1 "relay-a").1
     <> Len Samples.registry_a.
Proof. repeat split; vm_compute; reflexivity || discriminate. Qed.

(** ** Validator registration *)

Section RegistrationProperties.

Context {RpcClient GrpcConn ProposerClient : Type}.
Variable rpcDial : string -> result RpcClient.
Variable CommitHash : string.
Variable rpcCall : RpcClient -> string -> RegisterValidatorArgs -> option error.

Implicit Types m : Miner RpcClient ProposerClient.

Lemma calls_of_legacy_loop (args : RegisterValidatorArgs) (method : string)
    (l : list (string * RpcClient)) :
  let calls : list (RegistrationCall RpcClient ProposerClient) :=
    (fun '(dest, cl) => LegacyCall dest cl method args) <$> l in
  legacyCalls calls = l /\ grpcCalls calls = [].
Proof.
  unfold legacyCalls, grpcCalls.
  induction l as [|[dest cl] l [IH1 IH2]]; [done|].
  cbn in *. split; congruence.
Qed.

Lemma calls_of_grpc_loop (request : RegisterValidatorRequest)
    (l : list (string * ProposerClient)) :
  let calls : list (RegistrationCall RpcClient ProposerClient) :=
    (fun '(dest, cl) => GrpcRegisterValidator dest cl request) <$> l in
  grpcCalls calls = l /\ legacyCalls calls = [].
Proof.
  unfold legacyCalls, grpcCalls.
  induction l as [|[dest cl] l [IH1 IH2]]; [done|].
  cbn in *. split; congruence.
Qed.

Lemma registerValidator_grpc m :
  proposedBlockGrpcUri m <> "" -> LenGRPC (mevRelays m) <> 0%nat ->
  registerValidator CommitHash m = registerValidatorViaGRPC CommitHash m.
Proof.
  intros Hu Hl. unfold registerValidator.
  apply String.eqb_neq in Hu. apply Nat.eqb_neq in Hl. by rewrite Hu, Hl.
Qed.

(** C3.  With a gRPC callback URI configured and at least one gRPC relay
    registered, a broadcast issues no legacy call, whatever the legacy
    pool holds, and exactly one gRPC call per gRPC relay; otherwise it
    issues no gRPC call and exactly one legacy call per legacy relay. *)
Theorem registerValidator_transport m :
  let calls := registerValidator CommitHash m in
  (proposedBlockGrpcUri m <> "" /\ LenGRPC (mevRelays m) <> 0%nat ->
     legacyCalls calls = []
     /\ grpcCalls calls ≡ₚ map_to_list (clientGrpcMap (mevRelays m))
     /\ length calls = LenGRPC (mevRelays m))
  /\ (~ (proposedBlockGrpcUri m <> "" /\ LenGRPC (mevRelays m) <> 0%nat) ->
     grpcCalls calls = []
     /\ legacyCalls calls ≡ₚ map_to_list (clientMap (mevRelays m))
     /\ length calls = Len (mevRelays m)).
Proof.
  simpl. split.
  - intros [Hu Hl]. rewrite (registerValidator_grpc m Hu Hl).
    unfold registerValidatorViaGRPC. rewrite MappingGRPC_copy.
    match goal with
    | |- context [ ?f <$> map_to_list ?g ] =>
        destruct (calls_of_grpc_loop
                    {| rvr_Data := String.list_byte_of_string (proposedBlockGrpcUri m);
                       rvr_Signature := signedProposedBlockUri m;
                       rvr_Namespace := proposedBlockNamespace m;
                       rvr_CommitHash := CommitHash |} (map_to_list g)) as [H1 H2]
    end.
    simpl in H1, H2. rewrite H1, H2, length_fmap, length_map_to_list. done.
  - intros Hn. unfold registerValidator.
    destruct (negb (String.eqb (proposedBlockGrpcUri m) "")
              && negb (Nat.eqb (LenGRPC (mevRelays m)) 0)) eqn:Hc.
    { exfalso. apply Hn. apply andb_prop in Hc as [Hu Hl].
      apply negb_true_iff in Hu, Hl.
      split; [by apply String.eqb_neq | by apply Nat.eqb_neq]. }
    rewrite Mapping_copy.
    match goal with
    | |- context [ ?f <$> map_to_list ?g ] =>
        destruct (calls_of_legacy_loop
                    {| rva_Data := String.list_byte_of_string (proposedBlockUri m);
                       rva_Signature := signedProposedBlockUri m;
                       rva_Namespace := proposedBlockNamespace m;
                       rva_CommitHash := CommitHash;
                       rva_GasCeil := GasCeil (config (miner_worker m)) |}
                    "eth_registerValidator" (map_to_list g)) as [H1 H2]
    end.
    simpl in H1, H2. rewrite H1, H2, length_fmap, length_map_to_list. done.
Qed.

(** C10 (as amended).  When the dial succeeds and the registration call
    then fails, [AddRelay] returns the error of the call and keeps the
    relay: the registry is the one [Add] produced, a later [Get] finds the
    relay with the client just dialled, and the count is one more than
    before when the relay was not a member, unchanged when it was. *)
Theorem AddRelay_failed_call_keeps_relay m relay client e :
  rpcDial relay = Ok client ->
  rpcCall client "eth_registerValidator"
    {| rva_Data := String.list_byte_of_string (proposedBlockUri m);
       rva_Signature := signedProposedBlockUri m;
       rva_Namespace := proposedBlockNamespace m;
       rva_CommitHash := CommitHash;
       rva_GasCeil := GasCeil (config (miner_worker m)) |} = Some e ->
  exists m',
    AddRelay rpcDial CommitHash rpcCall m relay = (m', Some e)
    /\ mevRelays m' = (Add rpcDial (mevRelays m) relay).1
    /\ Get (mevRelays m') relay = Some client
    /\ Len (mevRelays m')
       = (if Get (mevRelays m) relay is Some _
          then Len (mevRelays m) else S (Len (mevRelays m))).
Proof.
  intros Hd Hc.
  destruct (Add_ok rpcDial (mevRelays m) relay client Hd) as (c1 & Ha & _ & _ & Hg & Hl).
  exists (set_mevRelays m c1). unfold AddRelay. rewrite Ha, Hc. simpl. done.
Qed.

End RegistrationProperties.

(** ** Machine integers and time *)

Lemma two63_eq : two63 = 9223372036854775808.
Proof. reflexivity. Qed.

Lemma two64_eq : two64 = 18446744073709551616.
Proof. reflexivity. Qed.

Lemma wrap_u64_range z : 0 <= wrap_u64 z < two64.
Proof. unfold wrap_u64. apply Z.mod_pos_bound. rewrite two64_eq. lia. Qed.

Lemma wrap_u64_le z : 0 <= z -> wrap_u64 z <= z.
Proof. intros Hz. unfold wrap_u64. apply Z.mod_le; [done|]. rewrite two64_eq. lia. Qed.

Lemma wrap_u64_small z : is_uint64 z -> wrap_u64 z = z.
Proof. intros Hz. unfold wrap_u64. by apply Z.mod_small. Qed.

(** [int64(x)] never exceeds the number [x] it is taken from ... *)
Lemma to_int64_le z : 0 <= z -> to_int64 z <= z.
Proof.
  intros Hz. unfold to_int64. pose proof (wrap_u64_le z Hz).
  pose proof two64_eq. destruct (wrap_u64 z <? two63); lia.
Qed.

(** ... and is that number when it fits. *)
Lemma to_int64_small z : 0 <= z < two63 -> to_int64 z = z.
Proof.
  intros Hz. unfold to_int64. rewrite wrap_u64_small.
  - destruct (Z.ltb_spec z two63); lia.
  - unfold is_uint64. pose proof two63_eq. pose proof two64_eq. lia.
Qed.

(** Negating a [Duration]: [-d] wraps only at the least [int64]. *)
Lemma to_int64_neg_le d : is_int64 d -> to_int64 (- d) <= - d.
Proof.
  unfold is_int64. intros Hd. pose proof two63_eq as E63. pose proof two64_eq as E64.
  destruct (Z_le_gt_dec 0 (- d)) as [Hp|Hn]; [by apply to_int64_le|].
  unfold to_int64, wrap_u64.
  assert ((- d) mod two64 = - d + two64) as ->.
  { symmetry. apply (Z.mod_unique_pos _ _ (-1)); lia. }
  destruct (Z.ltb_spec (- d + two64) two63); lia.
Qed.

Lemma to_int64_neg d : - two63 < d < two63 -> to_int64 (- d) = - d.
Proof.
  intros Hd. pose proof two63_eq as E63. pose proof two64_eq as E64.
  destruct (Z_le_gt_dec 0 (- d)) as [Hp|Hn]; [apply to_int64_small; lia|].
  unfold to_int64, wrap_u64.
  assert ((- d) mod two64 = - d + two64) as ->.
  { symmetry. apply (Z.mod_unique_pos _ _ (-1)); lia. }
  destruct (Z.ltb_spec (- d + two64) two63); lia.
Qed.

(** [time.Until(t)] is positive exactly when [t] lies in the future. *)
Lemma time_Until_pos now t : 0 < time_Until now t <-> now < t.
Proof. unfold time_Until, time_Sub. pose proof two63_eq. lia. Qed.

Lemma time_Until_neg now t : time_Until now t < 0 <-> t < now.
Proof. unfold time_Until, time_Sub. pose proof two63_eq. lia. Qed.

(** ** The proposal pipeline *)

(** Case analysis on what the collaborators returned, as far as the
    hypothesis [H] depends on it. *)
Ltac case_returned H :=
  cbv zeta in H;
  repeat match type of H with
         | context [match ?x with _ => _ end] => destruct x
         end.

Section PipelineProperties.

Context {RpcClient ProposerClient Transaction bestProposedWork : Type}.
Variable CalcGasLimit : Z -> Z -> Z.
Variable simulateProposedBlock :
  Z -> ProposedBlockArgs Transaction
  -> option bestProposedWork * Z * option error.
Variable proposingCtx_Done :
  ProposedBlockMsg Transaction bestProposedWork -> option error.

Implicit Types m : Miner RpcClient ProposerClient.

Local Abbreviation run := (ProposedBlock CalcGasLimit simulateProposedBlock proposingCtx_Done).

(** The deadline of the source against the one of unbounded arithmetic:
    wrap-around can only make the source's deadline earlier. *)
Lemma endOfProposingWindow_le m :
  is_uint64 (eth_CurrentBlock_Time m) ->
  is_uint64 (chainConfig_Parlia_Period (miner_worker m)) ->
  is_int64 (DelayLeftOver (config (miner_worker m))) ->
  endOfProposingWindow m
  <= (eth_CurrentBlock_Time m + chainConfig_Parlia_Period (miner_worker m)) * 10 ^ 9
     - DelayLeftOver (config (miner_worker m)).
Proof.
  unfold is_uint64, endOfProposingWindow, time_Add, time_Unix. intros Ht Hp Hd.
  set (s := eth_CurrentBlock_Time m + chainConfig_Parlia_Period (miner_worker m)).
  assert (0 <= s) as Hs by (unfold s; lia).
  pose proof (wrap_u64_le s Hs) as H1.
  pose proof (to_int64_le (wrap_u64 s) (proj1 (wrap_u64_range s))) as H2.
  pose proof (to_int64_neg_le _ Hd) as H3.
  change (10 ^ 9) with 1000000000. lia.
Qed.

Lemma endOfProposingWindow_exact m :
  0 <= eth_CurrentBlock_Time m ->
  0 <= chainConfig_Parlia_Period (miner_worker m) ->
  eth_CurrentBlock_Time m + chainConfig_Parlia_Period (miner_worker m) < two63 ->
  - two63 < DelayLeftOver (config (miner_worker m)) < two63 ->
  endOfProposingWindow m
  = (eth_CurrentBlock_Time m + chainConfig_Parlia_Period (miner_worker m)) * 10 ^ 9
    - DelayLeftOver (config (miner_worker m)).
Proof.
  unfold endOfProposingWindow, time_Add, time_Unix. intros Ht Hp Hs Hd.
  pose proof two63_eq. pose proof two64_eq.
  rewrite wrap_u64_small by (unfold is_uint64; lia).
  rewrite to_int64_small by lia. rewrite to_int64_neg by lia. lia.
Qed.

(** The four stages of a run, one equation each. *)
Lemma ProposedBlock_late m now relay blockNumber prevHash reward gasLimit gasUsed
    txs unReverted :
  endOfProposingWindow m <= now ->
  run m now relay blockNumber prevHash reward gasLimit gasUsed txs unReverted
  = {| simDuration := 0;
       err := Some (ErrTooLate (endOfProposingWindow m)
                               (time_Until now (endOfProposingWindow m)));
       events := [] |}.
Proof.
  intros Hl. unfold ProposedBlock.
  destruct (Z.leb_spec (time_Until now (endOfProposingWindow m)) 0) as [_|Hp]; [done|].
  apply (proj1 (time_Until_pos _ _)) in Hp. lia.
Qed.

Lemma ProposedBlock_gasUsed_exceeds m now relay blockNumber prevHash reward gasLimit
    gasUsed txs unReverted :
  now < endOfProposingWindow m ->
  currentGasLimit (miner_worker m) < gasUsed ->
  run m now relay blockNumber prevHash reward gasLimit gasUsed txs unReverted
  = {| simDuration := 0;
       err := Some (ErrGasUsedExceeds gasUsed (currentGasLimit (miner_worker m)));
       events := [] |}.
Proof.
  intros Hn Hg. apply (proj2 (time_Until_pos _ _)) in Hn. unfold ProposedBlock.
  destruct (Z.leb_spec (time_Until now (endOfProposingWindow m)) 0); [lia|].
  destruct (Z.gtb_spec gasUsed (currentGasLimit (miner_worker m))); [done|lia].
Qed.

Lemma ProposedBlock_gasLimit_differs m now relay blockNumber prevHash reward gasLimit
    gasUsed txs unReverted :
  now < endOfProposingWindow m ->
  gasUsed <= currentGasLimit (miner_worker m) ->
  gasLimit <> CalcGasLimit (prevBlockGasLimit (miner_worker m))
                           (GasCeil (config (miner_worker m))) ->
  run m now relay blockNumber prevHash reward gasLimit gasUsed txs unReverted
  = {| simDuration := 0;
       err := Some (ErrGasLimitDiffers gasLimit
                      (CalcGasLimit (prevBlockGasLimit (miner_worker m))
                                    (GasCeil (config (miner_worker m)))));
       events := [] |}.
Proof.
  intros Hn Hg Hd. apply (proj2 (time_Until_pos _ _)) in Hn. unfold ProposedBlock.
  destruct (Z.leb_spec (time_Until now (endOfProposingWindow m)) 0); [lia|].
  destruct (Z.gtb_spec gasUsed (currentGasLimit (miner_worker m))); [lia|].
  destruct (Z.eqb_spec (CalcGasLimit (prevBlockGasLimit (miner_worker m))
                                     (GasCeil (config (miner_worker m)))) gasLimit);
    [congruence|done].
Qed.

Lemma ProposedBlock_simulates m now relay blockNumber prevHash reward gasLimit
    gasUsed txs unReverted :
  now < endOfProposingWindow m ->
  gasUsed <= currentGasLimit (miner_worker m) ->
  gasLimit = CalcGasLimit (prevBlockGasLimit (miner_worker m))
                          (GasCeil (config (miner_worker m))) ->
  let timeout := time_Until now (endOfProposingWindow m) in
  let args :=
    proposalArgs relay blockNumber prevHash reward gasLimit gasUsed txs unReverted in
  let r := run m now relay blockNumber prevHash reward gasLimit gasUsed txs unReverted in
  simDuration r = (simulateProposedBlock timeout args).1.2
  /\ match simulateProposedBlock timeout args with
     | (_, _, Some e) =>
         err r = Some (ErrSimulationFailed e) /\ events r = [EvSimulate timeout args]
     | (None, _, None) =>
         err r = None /\ events r = [EvSimulate timeout args]
     | (Some simWork, d, None) =>
         let msg := {| pb_args := args; pb_simulatedWork := simWork;
                       pb_simDuration := d |} in
         match proposingCtx_Done msg with
         | Some ctxErr =>
             err r = Some (ErrContextTimeout ctxErr)
             /\ events r = [EvSimulate timeout args]
         | None => err r = None /\ events r = [EvSimulate timeout args; EvEnqueue msg]
         end
     end.
Proof.
  intros Hn Hg Hd. apply (proj2 (time_Until_pos _ _)) in Hn. cbv zeta.
  unfold ProposedBlock, proposalArgs.
  destruct (Z.leb_spec (time_Until now (endOfProposingWindow m)) 0); [lia|].
  destruct (Z.gtb_spec gasUsed (currentGasLimit (miner_worker m))); [lia|].
  destruct (Z.eqb_spec (CalcGasLimit (prevBlockGasLimit (miner_worker m))
                                     (GasCeil (config (miner_worker m)))) gasLimit);
    [|congruence].
  simpl negb. cbv iota.
  destruct (simulateProposedBlock _ _) as [[[w|] d] [se|]]; simpl; auto.
  destruct (proposingCtx_Done _); simpl; auto.
Qed.

(** Once both pre-checks are passed no run ends in the [gasUsed] error. *)
Lemma ProposedBlock_no_gasUsed_error m now relay blockNumber prevHash reward gasLimit
    gasUsed txs unReverted g l :
  now < endOfProposingWindow m ->
  gasUsed <= currentGasLimit (miner_worker m) ->
  err (run m now relay blockNumber prevHash reward gasLimit gasUsed txs unReverted)
  <> Some (ErrGasUsedExceeds g l).
Proof.
  intros Hn Hg.
  destruct (Z.eq_dec gasLimit (CalcGasLimit (prevBlockGasLimit (miner_worker m))
                                            (GasCeil (config (miner_worker m)))))
    as [He|He].
  - destruct (ProposedBlock_simulates m now relay blockNumber prevHash reward gasLimit
                gasUsed txs unReverted Hn Hg He) as [_ Hs].
    case_returned Hs; destruct Hs as [-> _]; discriminate.
  - rewrite ProposedBlock_gasLimit_differs by done. discriminate.
Qed.

(** Every way a run can fail leaves a non-nil error. *)
Lemma ProposedBlock_failure_has_error m now relay blockNumber prevHash reward gasLimit
    gasUsed txs unReverted :
  let timeout := time_Until now (endOfProposingWindow m) in
  let args :=
    proposalArgs relay blockNumber prevHash reward gasLimit gasUsed txs unReverted in
  endOfProposingWindow m <= now
  \/ currentGasLimit (miner_worker m) < gasUsed
  \/ gasLimit <> CalcGasLimit (prevBlockGasLimit (miner_worker m))
                              (GasCeil (config (miner_worker m)))
  \/ (exists w d e, simulateProposedBlock timeout args = (w, d, Some e))
  \/ (exists w d e, simulateProposedBlock timeout args = (Some w, d, None)
        /\ proposingCtx_Done {| pb_args := args; pb_simulatedWork := w;
                                pb_simDuration := d |} = Some e) ->
  err (run m now relay blockNumber prevHash reward gasLimit gasUsed txs unReverted)
  <> None.
Proof.
  intros timeout args Hf.
  destruct (Z_le_gt_dec (endOfProposingWindow m) now) as [Hl|Hn].
  { rewrite ProposedBlock_late by done. discriminate. }
  destruct (Z_lt_le_dec (currentGasLimit (miner_worker m)) gasUsed) as [Hg|Hg].
  { rewrite ProposedBlock_gasUsed_exceeds by (done || lia). discriminate. }
  destruct (Z.eq_dec gasLimit (CalcGasLimit (prevBlockGasLimit (miner_worker m))
                                            (GasCeil (config (miner_worker m)))))
    as [He|He].
  2: { rewrite ProposedBlock_gasLimit_differs by (done || lia). discriminate. }
  destruct (ProposedBlock_simulates m now relay blockNumber prevHash reward gasLimit
              gasUsed txs unReverted ltac:(lia) Hg He) as [_ Hs].
  fold timeout args in Hs.
  destruct Hf as [Hf|[Hf|[Hf|[(w & d & e & Hf)|(w & d & e & Hf & Hc)]]]];
    [lia|lia|done| |].
  - rewrite Hf in Hs. destruct w; destruct Hs as [-> _]; discriminate.
  - rewrite Hf in Hs. cbv zeta in Hs. rewrite Hc in Hs.
    destruct Hs as [-> _]. discriminate.
Qed.

(** C1.  A proposal that arrives strictly after the deadline (timestamp of
    the current block plus the slot period, less [DelayLeftOver]) is
    answered at once with the too-late error, which carries how far past
    the deadline it is; the simulation engine is not invoked and nothing is
    handed to the worker. *)
Theorem ProposedBlock_too_late m now relay blockNumber prevHash reward gasLimit
    gasUsed txs unReverted :
  is_uint64 (eth_CurrentBlock_Time m) ->
  is_uint64 (chainConfig_Parlia_Period (miner_worker m)) ->
  is_int64 (DelayLeftOver (config (miner_worker m))) ->
  (eth_CurrentBlock_Time m + chainConfig_Parlia_Period (miner_worker m)) * 10 ^ 9
    - DelayLeftOver (config (miner_worker m)) < now ->
  let r := run m now relay blockNumber prevHash reward gasLimit gasUsed txs unReverted in
  (exists window late, late < 0 /\ err r = Some (ErrTooLate window late))
  /\ simDuration r = 0
  /\ events r = []
  /\ simulateCalls r = 0%nat
  /\ enqueued r = [].
Proof.
  intros Ht Hp Hd Hlate r.
  pose proof (endOfProposingWindow_le m Ht Hp Hd) as Hle.
  assert (endOfProposingWindow m < now) as Hlt by lia.
  unfold r. rewrite ProposedBlock_late by lia. simpl. split_and!; try done.
  eexists _, _. split; [|reflexivity]. by apply time_Until_neg.
Qed.

(** C4.  For a proposal that is in time and passes the gas pre-check: if
    its [gasLimit] differs from [CalcGasLimit] of the previous block's gas
    limit and the configured ceiling, the run ends with the mismatch error
    and the simulation engine is not invoked; if it is equal, the run goes
    on to the simulation and does not end with the mismatch error. *)
Theorem ProposedBlock_gasLimit_check m now relay blockNumber prevHash reward gasLimit
    gasUsed txs unReverted :
  now < endOfProposingWindow m ->
  gasUsed <= currentGasLimit (miner_worker m) ->
  let desired := CalcGasLimit (prevBlockGasLimit (miner_worker m))
                              (GasCeil (config (miner_worker m))) in
  let r := run m now relay blockNumber prevHash reward gasLimit gasUsed txs unReverted in
  (gasLimit <> desired ->
     err r = Some (ErrGasLimitDiffers gasLimit desired)
     /\ simulateCalls r = 0%nat /\ enqueued r = [])
  /\ (gasLimit = desired ->
     simulateCalls r = 1%nat
     /\ forall g d, err r <> Some (ErrGasLimitDiffers g d)).
Proof.
  intros Hn Hg desired r. split.
  - intros Hd. unfold r. by rewrite ProposedBlock_gasLimit_differs.
  - intros He.
    destruct (ProposedBlock_simulates m now relay blockNumber prevHash reward gasLimit
                gasUsed txs unReverted Hn Hg He) as [_ Hs].
    fold r in Hs. unfold simulateCalls.
    case_returned Hs; destruct Hs as [-> ->]; split; done || discriminate.
Qed.

(** C5.  For a proposal that is in time, the run ends with the [gasUsed]
    error exactly when [gasUsed] is strictly greater than the current gas
    limit; with [gasUsed] equal to the limit it does not. *)
Theorem ProposedBlock_gas_precheck m now relay blockNumber prevHash reward gasLimit
    gasUsed txs unReverted :
  now < endOfProposingWindow m ->
  let r := run m now relay blockNumber prevHash reward gasLimit gasUsed txs unReverted in
  ((exists g l, err r = Some (ErrGasUsedExceeds g l))
   <-> currentGasLimit (miner_worker m) < gasUsed)
  /\ (currentGasLimit (miner_worker m) < gasUsed ->
      err r = Some (ErrGasUsedExceeds gasUsed (currentGasLimit (miner_worker m)))
      /\ simulateCalls r = 0%nat)
  /\ (gasUsed = currentGasLimit (miner_worker m) ->
      forall g l, err r <> Some (ErrGasUsedExceeds g l)).
Proof.
  intros Hn r. split_and!.
  - split.
    + intros (g & l & He).
      destruct (Z_lt_le_dec (currentGasLimit (miner_worker m)) gasUsed) as [|Hg]; [done|].
      exfalso. revert He. by apply ProposedBlock_no_gasUsed_error.
    + intros Hg. unfold r. rewrite ProposedBlock_gasUsed_exceeds by done. eauto.
  - intros Hg. unfold r. by rewrite ProposedBlock_gasUsed_exceeds.
  - intros -> g l. apply ProposedBlock_no_gasUsed_error; [done|lia].
Qed.

(** C6.  When the simulation of a proposal returns no work and no error,
    the run returns a nil error with the duration the simulation reported
    and puts nothing on the hand-off channel.  No failing run (late,
    [gasUsed] over the limit, [gasLimit] mismatch, simulation error,
    context done before the hand-off) returns that: each of them returns a
    non-nil error. *)
Theorem ProposedBlock_skip m now relay blockNumber prevHash reward gasLimit
    gasUsed txs unReverted d :
  now < endOfProposingWindow m ->
  gasUsed <= currentGasLimit (miner_worker m) ->
  gasLimit = CalcGasLimit (prevBlockGasLimit (miner_worker m))
                          (GasCeil (config (miner_worker m))) ->
  simulateProposedBlock (time_Until now (endOfProposingWindow m))
    (proposalArgs relay blockNumber prevHash reward gasLimit gasUsed txs unReverted)
  = (None, d, None) ->
  let r := run m now relay blockNumber prevHash reward gasLimit gasUsed txs unReverted in
  err r = None
  /\ simDuration r = d
  /\ enqueued r = []
  /\ simulateCalls r = 1%nat
  /\ forall m' now' relay' blockNumber' prevHash' reward' gasLimit' gasUsed' txs'
       unReverted',
       let timeout' := time_Until now' (endOfProposingWindow m') in
       let args' := proposalArgs relay' blockNumber' prevHash' reward' gasLimit'
                      gasUsed' txs' unReverted' in
       endOfProposingWindow m' <= now'
       \/ currentGasLimit (miner_worker m') < gasUsed'
       \/ gasLimit' <> CalcGasLimit (prevBlockGasLimit (miner_worker m'))
                                    (GasCeil (config (miner_worker m')))
       \/ (exists w d' e, simulateProposedBlock timeout' args' = (w, d', Some e))
       \/ (exists w d' e, simulateProposedBlock timeout' args' = (Some w, d', None)
             /\ proposingCtx_Done {| pb_args := args'; pb_simulatedWork := w;
                                     pb_simDuration := d' |} = Some e) ->
       err (run m' now' relay' blockNumber' prevHash' reward' gasLimit' gasUsed'
                txs' unReverted') <> err r.
Proof.
  intros Hn Hg He Hs r.
  destruct (ProposedBlock_simulates m now relay blockNumber prevHash reward gasLimit
              gasUsed txs unReverted Hn Hg He) as [Hd Hr].
  fold r in Hd, Hr. rewrite Hs in Hd, Hr. destruct Hr as [Herr Hev].
  unfold enqueued, simulateCalls. rewrite Hev, Herr. split_and!; try done.
  intros m' now' relay' blockNumber' prevHash' reward' gasLimit' gasUsed' txs'
    unReverted' Hf.
  by apply ProposedBlock_failure_has_error.
Qed.

End PipelineProperties.

(** ** The builder bid ingress *)

Section BidProperties.

Import ethapi.

Context {Transaction PublicKey : Type}.
Variable IsHexAddress : string -> bool.
Variable HexToAddress : string -> Address.
Variable Hash_Hex : Hash -> string.
Variable UnmarshalBinary : list Byte.byte -> result Transaction.
Variable rlp_EncodeToBytes : option BidMessage -> result (list Byte.byte).
Variable hexutil_Decode : string -> result (list Byte.byte).
Variable Ecrecover : list Byte.byte -> list Byte.byte -> result (list Byte.byte).
Variable UnmarshalPubkey : list Byte.byte -> result PublicKey.
Variable PubkeyToAddress : PublicKey -> Address.

Implicit Types b : Backend Transaction.

Local Abbreviation bid :=
  (Bid IsHexAddress HexToAddress Hash_Hex UnmarshalBinary rlp_EncodeToBytes
       hexutil_Decode Ecrecover UnmarshalPubkey PubkeyToAddress).

(** What a bid that passes [checkBasic] looks like. *)
Lemma checkBasic_accepts args :
  checkBasic IsHexAddress args = Returned None ->
  exists msg, Message args = Some msg
    /\ Block msg <> 0 /\ ParentHash msg <> "" /\ 0 < GasLimit msg
    /\ 0 < GasValue msg /\ 0 <= BuilderFeeValue msg
    /\ BuilderFeeValue msg < GasValue msg
    /\ BuilderAddress msg <> "" /\ IsHexAddress (BuilderAddress msg) = true.
Proof.
  unfold checkBasic. destruct (Message args) as [msg|]; [|discriminate]. simpl.
  destruct (Z.eqb_spec (Block msg) 0); [discriminate|].
  destruct (String.eqb_spec (ParentHash msg) ""); [discriminate|].
  destruct (Z.leb_spec (GasLimit msg) 0); [discriminate|].
  destruct (Z.leb_spec (GasValue msg) 0); [discriminate|].
  destruct (Z.ltb_spec (BuilderFeeValue msg) 0); [discriminate|].
  destruct (Z.leb_spec (GasValue msg) (BuilderFeeValue msg)); [discriminate|].
  destruct (String.eqb_spec (BuilderAddress msg) ""); [discriminate|].
  destruct (IsHexAddress (BuilderAddress msg)) eqn:Hx; [|discriminate].
  intros _. exists msg. split_and!; done.
Qed.

(** A bid whose structural validation fails never reaches the chain head:
    the only backend method called is [BuilderEnabled]. *)
Lemma Bid_checkBasic_error b args e :
  BuilderEnabled b = true ->
  checkBasic IsHexAddress args = Returned (Some e) ->
  bid b args = ([CallBuilderEnabled], Returned (Some e)).
Proof. intros Hb Hc. unfold Bid. by rewrite Hb, Hc. Qed.

(** A nil message makes the first field read of [checkBasic] panic. *)
Lemma Bid_nil_message b sig :
  BuilderEnabled b = true ->
  bid b {| Message := None; Signature := sig |}
  = ([CallBuilderEnabled], Panicked NilDereference).
Proof. intros Hb. unfold Bid. by rewrite Hb. Qed.

(** A signature that [hexutil.Decode] rejects makes [checkSignature]
    panic, for a bid that is past the structural and the chain-consistency
    checks and whose message [rlp.EncodeToBytes] encoded. *)
Lemma Bid_undecodable_signature b args txs hash e :
  BuilderEnabled b = true ->
  checkBasic IsHexAddress args = Returned None ->
  checkBlock Hash_Hex UnmarshalBinary args (CurrentBlock b) = Returned (Ok txs) ->
  rlp_EncodeToBytes (Message args) = Ok hash ->
  hexutil_Decode (Signature args) = Err e ->
  bid b args = ([CallBuilderEnabled; CallCurrentBlock], Panicked (PanicWith e)).
Proof.
  intros Hb Hc Hk Hr Hd. unfold Bid. rewrite Hb, Hc, Hk. simpl.
  unfold checkSignature, hexutil_MustDecode. by rewrite Hr, Hd.
Qed.

(** C7.  A bid whose gas value equals its builder fee is rejected by the
    structural validation: [checkBasic] returns one of its first six
    errors, the fee error when the five checks before it pass; [Bid]
    returns that error (or, with the builder API disabled, the
    not-enabled error) having called no backend method but
    [BuilderEnabled], so neither the chain head is read nor the signature
    checked. *)
Theorem checkBasic_rejects_equal_fee b msg sig :
  GasValue msg = BuilderFeeValue msg ->
  let args := {| Message := Some msg; Signature := sig |} in
  exists e,
    checkBasic IsHexAddress args = Returned (Some e)
    /\ e ∈ [ErrMissingBlockNumber; ErrMissingParentHash; ErrMissingGasLimit;
            ErrMissingGasValue; ErrInvalidBuilderFee; ErrGasValueLowerThanFee]
    /\ (Block msg <> 0 -> ParentHash msg <> "" -> 0 < GasLimit msg ->
        0 < GasValue msg -> 0 <= BuilderFeeValue msg ->
        e = ErrGasValueLowerThanFee)
    /\ (BuilderEnabled b = true ->
        bid b args = ([CallBuilderEnabled], Returned (Some e)))
    /\ (BuilderEnabled b = false ->
        bid b args = ([CallBuilderEnabled], Returned (Some ErrBuilderNotEnabled))).
Proof.
  intros Heq args.
  assert (exists e, checkBasic IsHexAddress args = Returned (Some e)
            /\ e ∈ [ErrMissingBlockNumber; ErrMissingParentHash; ErrMissingGasLimit;
                    ErrMissingGasValue; ErrInvalidBuilderFee; ErrGasValueLowerThanFee]
            /\ (Block msg <> 0 -> ParentHash msg <> "" -> 0 < GasLimit msg ->
                0 < GasValue msg -> 0 <= BuilderFeeValue msg ->
                e = ErrGasValueLowerThanFee)) as (e & Hc & Hin & Hfee).
  { unfold checkBasic, args. simpl.
    destruct (Z.eqb_spec (Block msg) 0);
      [eexists; split_and!; [done|set_solver|done]|].
    destruct (String.eqb_spec (ParentHash msg) "");
      [eexists; split_and!; [done|set_solver|done]|].
    destruct (Z.leb_spec (GasLimit msg) 0);
      [eexists; split_and!; [done|set_solver|intros; lia]|].
    destruct (Z.leb_spec (GasValue msg) 0);
      [eexists; split_and!; [done|set_solver|intros; lia]|].
    destruct (Z.ltb_spec (BuilderFeeValue msg) 0);
      [eexists; split_and!; [done|set_solver|intros; lia]|].
    destruct (Z.leb_spec (GasValue msg) (BuilderFeeValue msg)); [|lia].
    eexists; split_and!; [done|set_solver|done]. }
  exists e. split_and!; try done.
  - intros Hb. by apply Bid_checkBasic_error.
  - intros Hb. unfold Bid. by rewrite Hb.
Qed.

End BidProperties.

(** ** The relay block-proposal ingress *)

Section ProposeBlockProperties.

Import grpc.

Context {Transaction : Type}.
Variable UnmarshalBinary : list Byte.byte -> result Transaction.
Variable HexToHash : string -> Hash.

Lemma big_Cmp_le x y : (big_Cmp x y <? 1) = true <-> x <= y.
Proof.
  unfold big_Cmp. destruct (Z.compare_spec x y); simpl; split; intros; lia || done.
Qed.

(** C8.  A request with an empty payload, with block number zero, or with
    a block number not above the number of the chain head (equal
    included) is answered with an error, and the pipeline is not
    invoked. *)
Theorem ProposeBlock_rejects (p : Proposer Transaction) receivedAt responseSentAt in_ :
  Payload in_ = []
  \/ BlockNumber in_ = 0
  \/ BlockNumber in_ <= ethapi.blk_Number (ethapi.CurrentBlock (backend p)) ->
  let r := ProposeBlock UnmarshalBinary HexToHash p receivedAt responseSentAt in_ in
  (exists e, r.2 = Err e) /\ pipelineCalls r.1 = 0%nat.
Proof.
  intros Hbad. unfold ProposeBlock. cbv zeta.
  destruct (Payload in_) as [|tx payload] eqn:Hp; [simpl; eauto|].
  simpl length. simpl Nat.eqb. cbv iota.
  destruct (Z.eqb_spec (BlockNumber in_) 0) as [|Hz]; [simpl; eauto|].
  destruct Hbad as [Hbad|[Hbad|Hbad]]; [done|done|].
  apply big_Cmp_le in Hbad. rewrite Hbad. simpl. eauto.
Qed.

End ProposeBlockProperties.

(** ** The theorems at the sample data *)

(** Closes a goal made of comparisons between numerals. *)
Ltac by_evaluation :=
  vm_compute; repeat split; solve [reflexivity | discriminate | intros ?; discriminate].

(** Both pools hold a relay and a gRPC callback URI is set: the one call
    goes to the gRPC relay.  With no gRPC URI the one call is a legacy
    call. *)
Lemma registerValidator_transport_witness :
  (let calls := registerValidator "abc"
                  (Samples.miner_with Samples.registry_ag "validator:9443") in
   legacyCalls calls = [] /\ length calls = 1%nat)
  /\ (let calls := registerValidator "abc"
                     (Samples.miner_with Samples.registry_ag "") in
      grpcCalls calls = [] /\ length calls = 1%nat).
Proof.
  split.
  - destruct (registerValidator_transport "abc"
                (Samples.miner_with Samples.registry_ag "validator:9443")) as [Hg _].
    destruct Hg as (Hl & _ & Hn); [by_evaluation|]. split; [exact Hl|exact Hn].
  - destruct (registerValidator_transport "abc"
                (Samples.miner_with Samples.registry_ag "")) as [_ Hr].
    destruct Hr as (Hl & _ & Hn); [|split; [exact Hl|exact Hn]].
    intros [Hu _]. apply Hu. reflexivity.
Defined.

(** A relay that is new to the registry stays registered after its
    registration call failed. *)
Lemma AddRelay_failed_call_keeps_relay_witness :
  exists m',
    AddRelay Samples.dial "abc" Samples.callFails
      (Samples.miner_with Samples.registry_empty "") "relay-a"
    = (m', Some (ErrExternal "connection refused"))
    /\ Get (mevRelays m') "relay-a" = Some 7%nat
    /\ Len (mevRelays m') = 1%nat.
Proof.
  destruct (AddRelay_failed_call_keeps_relay Samples.dial "abc" Samples.callFails
              (Samples.miner_with Samples.registry_empty "") "relay-a" 7%nat
              (ErrExternal "connection refused") eq_refl eq_refl)
    as (m' & Ha & _ & Hg & Hl).
  exists m'. split; [exact Ha|]. split; [exact Hg|exact Hl].
Defined.

(** C10 as stated fails for a relay that is already registered: the
    failed [AddRelay] replaces its client (1 becomes 7) and the count
    stays 1. *)
Lemma AddRelay_failed_call_keeps_relay_counterexample :
  let m := Samples.miner_with Samples.registry_a "" in
  let r := AddRelay Samples.dial "abc" Samples.callFails m "relay-a" in
  Samples.dial "relay-a" = Ok 7%nat
  /\ r.2 = Some (ErrExternal "connection refused")
  /\ Get (mevRelays r.1) "relay-a" = Some 7%nat
  /\ Len (mevRelays m) = 1%nat
  /\ Len (mevRelays r.1) = 1%nat
  /\ Len (mevRelays r.1) <> S (Len (mevRelays m)).
Proof. by_evaluation. Qed.

(** One millisecond past the deadline. *)
Lemma ProposedBlock_too_late_witness :
  let r := ProposedBlock Samples.calcGasLimit Samples.simulateSkips Samples.workerTakes
             (Samples.miner_with Samples.registry_a "") Samples.now_late
             "relay-a" 101 171%N 1 30000000 5000000 [] ∅ in
  (exists window late, late < 0 /\ err r = Some (ErrTooLate window late))
  /\ simulateCalls r = 0%nat.
Proof.
  destruct (ProposedBlock_too_late Samples.calcGasLimit Samples.simulateSkips
              Samples.workerTakes (Samples.miner_with Samples.registry_a "")
              Samples.now_late "relay-a" 101 171%N 1 30000000 5000000 [] ∅)
    as (He & _ & _ & Hs & _); [by_evaluation..|].
  split; [exact He|exact Hs].
Defined.

(** In time and within the gas limit: a proposal with the expected
    [gasLimit] is simulated, one with another [gasLimit] is not. *)
Lemma ProposedBlock_gasLimit_check_witness :
  (let r := ProposedBlock Samples.calcGasLimit Samples.simulateSkips Samples.workerTakes
              (Samples.miner_with Samples.registry_a "") Samples.now_early
              "relay-a" 101 171%N 1 30000000 5000000 [] ∅ in
   simulateCalls r = 1%nat)
  /\ (let r := ProposedBlock Samples.calcGasLimit Samples.simulateSkips
                 Samples.workerTakes (Samples.miner_with Samples.registry_a "")
                 Samples.now_early "relay-a" 101 171%N 1 29000000 5000000 [] ∅ in
      err r = Some (ErrGasLimitDiffers 29000000 30000000) /\ simulateCalls r = 0%nat).
Proof.
  split.
  - destruct (ProposedBlock_gasLimit_check Samples.calcGasLimit Samples.simulateSkips
                Samples.workerTakes (Samples.miner_with Samples.registry_a "")
                Samples.now_early "relay-a" 101 171%N 1 30000000 5000000 [] ∅)
      as [_ Heq]; [by_evaluation..|].
    destruct Heq as [Hs _]; [reflexivity|exact Hs].
  - destruct (ProposedBlock_gasLimit_check Samples.calcGasLimit Samples.simulateSkips
                Samples.workerTakes (Samples.miner_with Samples.registry_a "")
                Samples.now_early "relay-a" 101 171%N 1 29000000 5000000 [] ∅)
      as [Hne _]; [by_evaluation..|].
    destruct Hne as (He & Hs & _); [by_evaluation|]. split; [exact He|exact Hs].
Defined.

(** [gasUsed] equal to the current gas limit of 8000000 is not over it;
    8000001 is. *)
Lemma ProposedBlock_gas_precheck_witness :
  (let r := ProposedBlock Samples.calcGasLimit Samples.simulateSkips Samples.workerTakes
              (Samples.miner_with Samples.registry_a "") Samples.now_early
              "relay-a" 101 171%N 1 30000000 8000000 [] ∅ in
   err r <> Some (ErrGasUsedExceeds 8000000 8000000))
  /\ (let r := ProposedBlock Samples.calcGasLimit Samples.simulateSkips
                 Samples.workerTakes (Samples.miner_with Samples.registry_a "")
                 Samples.now_early "relay-a" 101 171%N 1 30000000 8000001 [] ∅ in
      err r = Some (ErrGasUsedExceeds 8000001 8000000) /\ simulateCalls r = 0%nat).
Proof.
  split.
  - destruct (ProposedBlock_gas_precheck Samples.calcGasLimit Samples.simulateSkips
                Samples.workerTakes (Samples.miner_with Samples.registry_a "")
                Samples.now_early "relay-a" 101 171%N 1 30000000 8000000 [] ∅)
      as (_ & _ & Heq); [by_evaluation|].
    exact (Heq eq_refl 8000000 8000000).
  - destruct (ProposedBlock_gas_precheck Samples.calcGasLimit Samples.simulateSkips
                Samples.workerTakes (Samples.miner_with Samples.registry_a "")
                Samples.now_early "relay-a" 101 171%N 1 30000000 8000001 [] ∅)
      as (_ & Hgt & _); [by_evaluation|].
    apply Hgt. by_evaluation.
Defined.

(** The simulation skips the block. *)
Lemma ProposedBlock_skip_witness :
  let r := ProposedBlock Samples.calcGasLimit Samples.simulateSkips Samples.workerTakes
             (Samples.miner_with Samples.registry_a "") Samples.now_early
             "relay-a" 101 171%N 1 30000000 5000000 [] ∅ in
  err r = None /\ simDuration r = 50000000 /\ enqueued r = [].
Proof.
  destruct (ProposedBlock_skip Samples.calcGasLimit Samples.simulateSkips
              Samples.workerTakes (Samples.miner_with Samples.registry_a "")
              Samples.now_early "relay-a" 101 171%N 1 30000000 5000000 [] ∅ 50000000)
    as (He & Hd & Hq & _); [by_evaluation..|].
  split; [exact He|]. split; [exact Hd|exact Hq].
Defined.

(** A bid with gas value and builder fee both 100 gets the fee error, and
    the chain head is not read. *)
Lemma checkBasic_rejects_equal_fee_witness :
  let args := {| ethapi.Message := Some (Samples.bid_with_fee 100);
                 ethapi.Signature := "0x00" |} in
  ethapi.checkBasic Samples.isHexAddress args = Returned (Some ErrGasValueLowerThanFee)
  /\ ethapi.Bid Samples.isHexAddress Samples.hexToAddress Samples.hashHex
       Samples.unmarshalBinary Samples.rlpEncode Samples.hexDecode Samples.ecrecover
       Samples.unmarshalPubkey Samples.pubkeyToAddress Samples.backend_enabled args
     = ([ethapi.CallBuilderEnabled], Returned (Some ErrGasValueLowerThanFee)).
Proof.
  destruct (checkBasic_rejects_equal_fee Samples.isHexAddress Samples.hexToAddress
              Samples.hashHex Samples.unmarshalBinary Samples.rlpEncode
              Samples.hexDecode Samples.ecrecover Samples.unmarshalPubkey
              Samples.pubkeyToAddress Samples.backend_enabled
              (Samples.bid_with_fee 100) "0x00" eq_refl)
    as (e & Hc & _ & Hfee & Hbid & _).
  assert (e = ErrGasValueLowerThanFee) as -> by (apply Hfee; by_evaluation).
  split; [exact Hc|exact (Hbid eq_refl)].
Defined.

(** A request for block 100 when the head is block 100. *)
Lemma ProposeBlock_rejects_witness :
  let r := grpc.ProposeBlock Samples.unmarshalBinary (fun _ => 171%N)
             {| grpc.backend := Samples.backend_enabled |} 0 1
             (Samples.request_for 100) in
  (exists e, r.2 = Err e) /\ grpc.pipelineCalls r.1 = 0%nat.
Proof.
  apply (ProposeBlock_rejects Samples.unmarshalBinary (fun _ => 171%N)
           {| grpc.backend := Samples.backend_enabled |} 0 1 (Samples.request_for 100)).
  right. right. by_evaluation.
Defined.

(** C2 fails on the code: with the builder API enabled, a bid without a
    message makes [Bid] panic on the first field read of [checkBasic]
    instead of returning an error value.  (A signature string that is not
    hex makes it panic as well once the message is encoded, see
    [Bid_undecodable_signature].) *)
Theorem Bid_panics :
  ethapi.Bid Samples.isHexAddress Samples.hexToAddress Samples.hashHex
    Samples.unmarshalBinary Samples.rlpEncode Samples.hexDecode Samples.ecrecover
    Samples.unmarshalPubkey Samples.pubkeyToAddress Samples.backend_enabled
    {| ethapi.Message := None; ethapi.Signature := "0x00" |}
  = ([ethapi.CallBuilderEnabled], Panicked NilDereference).
Proof. by apply Bid_nil_message. Qed.

(** * Further properties of the code *)

(** ** The relay registry *)

Section RegistryExtras.

Context {RpcClient GrpcConn ProposerClient : Type}.
Variable rpcDial : string -> result RpcClient.
Variable grpcDial : string -> result GrpcConn.
Variable NewProposerClient : GrpcConn -> ProposerClient.
Variable CommitHash : string.
Variable rpcCall : RpcClient -> string -> RegisterValidatorArgs -> option error.

Implicit Types c : ClientMapping RpcClient ProposerClient.
Implicit Types m : Miner RpcClient ProposerClient.

(** The dialling loops of [NewClientMap]: an endpoint of the list ends up
    bound to its dialled client, or keeps what the map held when its dial
    fails; other keys keep what the map held. *)
Lemma dial_loop_lookup {A B : Type} (dial : string -> result A) (wrap : A -> B)
    (endpoints : list string) (m0 : gmap string B) (k : string) :
  foldl (fun (m : gmap string B) endpoint =>
           match dial endpoint with
           | Err _ => m
           | Ok conn => <[endpoint := wrap conn]> m
           end) m0 endpoints !! k
  = if decide (k ∈ endpoints)
    then match dial k with Ok conn => Some (wrap conn) | Err _ => m0 !! k end
    else m0 !! k.
Proof.
  revert m0. induction endpoints as [|e l IH]; intros m0; cbn [foldl].
  { destruct (decide (k ∈ [])) as [Hin|_]; [|done]. by apply not_elem_of_nil in Hin. }
  rewrite IH. destruct (decide (k = e)) as [->|Hne].
  - destruct (decide (e ∈ e :: l)) as [_|Hn]; [|by destruct Hn; left].
    destruct (dial e) as [conn|err] eqn:Hd.
    + rewrite lookup_insert_eq. by destruct (decide (e ∈ l)).
    + by destruct (decide (e ∈ l)).
  - assert ((match dial e with Err _ => m0 | Ok conn => <[e := wrap conn]> m0 end) !! k
            = m0 !! k) as ->.
    { destruct (dial e); [by rewrite lookup_insert_ne|done]. }
    destruct (decide (k ∈ l)) as [Hl|Hl], (decide (k ∈ e :: l)) as [Hc|Hc]; try done.
    + destruct Hc. by right.
    + apply elem_of_cons in Hc as [?|?]; done.
Qed.

(** X1.  After [NewClientMap] an endpoint is in a pool exactly when it is
    in the configured list of that pool and its dial succeeded, and it is
    bound to the dialled client; the two pools are filled independently. *)
Theorem NewClientMap_lookup (relays relaysGRPC : list string) (relay : string) :
  let c := NewClientMap rpcDial grpcDial NewProposerClient relays relaysGRPC in
  Get c relay
  = (if decide (relay ∈ relays)
     then match rpcDial relay with Ok client => Some client | Err _ => None end
     else None)
  /\ GetGRPC c relay
     = (if decide (relay ∈ relaysGRPC)
        then match grpcDial relay with
             | Ok conn => Some (NewProposerClient conn)
             | Err _ => None
             end
        else None).
Proof.
  unfold NewClientMap, Get, GetGRPC. simpl. split.
  - rewrite (dial_loop_lookup rpcDial (fun x => x)). by rewrite lookup_empty.
  - rewrite (dial_loop_lookup grpcDial NewProposerClient). by rewrite lookup_empty.
Qed.

(** X2.  [Add], [Remove], [AddGrpc] and [RemoveGrpc] touch one endpoint of
    one pool: every other endpoint of that pool keeps its client, and the
    other pool is left as it is. *)
Theorem registry_frame c relay other :
  other <> relay ->
  (Get (Add rpcDial c relay).1 other = Get c other
   /\ Get (Remove c relay).1 other = Get c other
   /\ GetGRPC (AddGrpc grpcDial NewProposerClient c relay).1 other = GetGRPC c other
   /\ GetGRPC (RemoveGrpc c relay).1 other = GetGRPC c other)
  /\ (clientGrpcMap (Add rpcDial c relay).1 = clientGrpcMap c
      /\ clientGrpcMap (Remove c relay).1 = clientGrpcMap c
      /\ clientMap (AddGrpc grpcDial NewProposerClient c relay).1 = clientMap c
      /\ clientMap (RemoveGrpc c relay).1 = clientMap c).
Proof.
  intros Hne. unfold Get, GetGRPC, Add, Remove, AddGrpc, RemoveGrpc.
  destruct (rpcDial relay), (grpcDial relay), (clientMap c !! relay),
    (clientGrpcMap c !! relay); simpl;
    rewrite ?lookup_insert_ne, ?lookup_delete_ne by done; done.
Qed.

(** X3.  After a [Remove], successful or not, the endpoint is absent: a
    second [Remove] returns the not-found error and changes nothing. *)
Theorem Remove_twice c relay :
  (let c1 := (Remove c relay).1 in
   Remove c1 relay = (c1, Some (ErrRelayNotFound relay)))
  /\ (let c1 := (RemoveGrpc c relay).1 in
      RemoveGrpc c1 relay = (c1, Some (ErrRelayGrpcNotFound relay))).
Proof.
  split; cbv zeta.
  - apply Remove_absent. unfold Remove, Get.
    destruct (clientMap c !! relay) eqn:Hl; simpl; [apply lookup_delete_eq|done].
  - apply RemoveGrpc_absent. unfold RemoveGrpc, GetGRPC.
    destruct (clientGrpcMap c !! relay) eqn:Hl; simpl; [apply lookup_delete_eq|done].
Qed.

Lemma set_mevRelays_same m : set_mevRelays m (mevRelays m) = m.
Proof. by destruct m. Qed.

(** X4.  [RemoveRelay] undoes [AddRelay] of a relay that was not
    registered: the miner is again the one from before, whether or not the
    registration call succeeded. *)
Theorem RemoveRelay_after_AddRelay m relay client :
  rpcDial relay = Ok client ->
  Get (mevRelays m) relay = None ->
  RemoveRelay (AddRelay rpcDial CommitHash rpcCall m relay).1 relay = (m, None).
Proof.
  intros Hd Hn. pose proof (Remove_Add_fresh rpcDial (mevRelays m) relay client Hd Hn) as Hr.
  unfold AddRelay. destruct (Add rpcDial (mevRelays m) relay) as [c1 [cl|e]] eqn:Ha.
  2: { unfold Add in Ha. rewrite Hd in Ha. discriminate. }
  simpl in Hr.
  assert (RemoveRelay (set_mevRelays m c1) relay = (m, None)) as Hgoal.
  { unfold RemoveRelay. simpl. rewrite Hr. unfold set_mevRelays. simpl.
    by destruct m. }
  by destruct (rpcCall cl _ _).
Qed.

(** X5.  [AddRelay] returns nil exactly when the dial and the registration
    call both succeed; when the dial fails it returns the dial error and
    the miner is unchanged (no registration is attempted); when the dial
    succeeds the relay is registered with the dialled client whatever the
    call returns. *)
Theorem AddRelay_outcomes m relay :
  let args :=
    {| rva_Data := String.list_byte_of_string (proposedBlockUri m);
       rva_Signature := signedProposedBlockUri m;
       rva_Namespace := proposedBlockNamespace m;
       rva_CommitHash := CommitHash;
       rva_GasCeil := GasCeil (config (miner_worker m)) |} in
  let r := AddRelay rpcDial CommitHash rpcCall m relay in
  (r.2 = None <->
   exists client, rpcDial relay = Ok client
                  /\ rpcCall client "eth_registerValidator" args = None)
  /\ (forall e, rpcDial relay = Err e -> r = (m, Some e))
  /\ (forall client, rpcDial relay = Ok client ->
      r.2 = rpcCall client "eth_registerValidator" args
      /\ Get (mevRelays r.1) relay = Some client
      /\ clientGrpcMap (mevRelays r.1) = clientGrpcMap (mevRelays m)).
Proof.
  cbv zeta. unfold AddRelay, Add, Get.
  destruct (rpcDial relay) as [client|e] eqn:Hd; simpl.
  - destruct (rpcCall client _ _) as [ce|] eqn:Hc; simpl.
    + split_and!.
      * split; [discriminate|]. intros (cl & [= <-] & Hn). congruence.
      * intros ? [=].
      * intros cl [= <-]. rewrite Hc, lookup_insert_eq. done.
    + split_and!.
      * split; [eauto|done].
      * intros ? [=].
      * intros cl [= <-]. rewrite Hc, lookup_insert_eq. done.
  - rewrite set_mevRelays_same. split_and!.
    + split; [discriminate|]. intros (cl & [=] & _).
    + by intros ? [= ->].
    + intros ? [=].
Qed.

End RegistryExtras.

(** ** Validator registration *)

Section RegistrationExtras.

Context {RpcClient ProposerClient : Type}.
Variable CommitHash : string.

Implicit Types m : Miner RpcClient ProposerClient.

(** X6.  Every call of a broadcast goes to a relay of the registry, with
    the client the registry holds for it, and carries the one payload of
    the broadcast: a legacy call is [eth_registerValidator] with the legacy
    callback URI and the gas ceiling, a gRPC call carries the gRPC callback
    URI and no gas ceiling. *)
Theorem registerValidator_payload m call :
  call ∈ registerValidator CommitHash m ->
  match call with
  | LegacyCall dest cl method args =>
      Get (mevRelays m) dest = Some cl
      /\ method = "eth_registerValidator"
      /\ args = {| rva_Data := String.list_byte_of_string (proposedBlockUri m);
                   rva_Signature := signedProposedBlockUri m;
                   rva_Namespace := proposedBlockNamespace m;
                   rva_CommitHash := CommitHash;
                   rva_GasCeil := GasCeil (config (miner_worker m)) |}
  | GrpcRegisterValidator dest cl request =>
      GetGRPC (mevRelays m) dest = Some cl
      /\ proposedBlockGrpcUri m <> ""
      /\ request = {| rvr_Data := String.list_byte_of_string (proposedBlockGrpcUri m);
                      rvr_Signature := signedProposedBlockUri m;
                      rvr_Namespace := proposedBlockNamespace m;
                      rvr_CommitHash := CommitHash |}
  end.
Proof.
  unfold registerValidator, registerValidatorViaGRPC, Get, GetGRPC.
  destruct (String.eqb_spec (proposedBlockGrpcUri m) "") as [Hu|Hu]; simpl.
  - rewrite Mapping_copy. intros Hin.
    apply list_elem_of_fmap in Hin as ([dest cl] & -> & Hin).
    apply elem_of_map_to_list in Hin. done.
  - destruct (Nat.eqb (LenGRPC (mevRelays m)) 0); simpl.
    + rewrite Mapping_copy. intros Hin.
      apply list_elem_of_fmap in Hin as ([dest cl] & -> & Hin).
      apply elem_of_map_to_list in Hin. done.
    + rewrite MappingGRPC_copy. intros Hin.
      apply list_elem_of_fmap in Hin as ([dest cl] & -> & Hin).
      apply elem_of_map_to_list in Hin. done.
Qed.

(** X7.  A broadcast calls no relay twice, and with both pools empty it
    makes no call at all. *)
Theorem registerValidator_once_per_relay m :
  let calls := registerValidator CommitHash m in
  NoDup (legacyCalls calls).*1
  /\ NoDup (grpcCalls calls).*1
  /\ (Len (mevRelays m) = 0%nat -> LenGRPC (mevRelays m) = 0%nat -> calls = []).
Proof.
  cbv zeta. unfold registerValidator, registerValidatorViaGRPC.
  destruct (negb (String.eqb (proposedBlockGrpcUri m) "")
            && negb (Nat.eqb (LenGRPC (mevRelays m)) 0)) eqn:Hc.
  - rewrite MappingGRPC_copy.
    match goal with
    | |- context [ (fun '(dest, destClient) => GrpcRegisterValidator dest destClient ?req)
                     <$> ?l ] =>
        destruct (calls_of_grpc_loop (RpcClient := RpcClient) req l) as [H1 H2]
    end.
    simpl in H1, H2. rewrite H1, H2. split_and!.
    + constructor.
    + apply NoDup_fst_map_to_list.
    + intros _ Hg. apply andb_prop in Hc as [_ Hl].
      apply negb_true_iff, Nat.eqb_neq in Hl. done.
  - rewrite Mapping_copy.
    match goal with
    | |- context [ (fun '(dest, destClient) => LegacyCall dest destClient ?meth ?args)
                     <$> ?l ] =>
        destruct (calls_of_legacy_loop (ProposerClient := ProposerClient) args meth l)
          as [H1 H2]
    end.
    simpl in H1, H2. rewrite H1, H2. split_and!.
    + apply NoDup_fst_map_to_list.
    + constructor.
    + intros Hl _. unfold Len in Hl. apply map_size_empty_inv in Hl.
      rewrite Hl, map_to_list_empty. done.
Qed.

End RegistrationExtras.

(** ** The proposal pipeline *)

Section PipelineExtras.

Context {RpcClient ProposerClient Transaction bestProposedWork : Type}.
Variable CalcGasLimit : Z -> Z -> Z.
Variable simulateProposedBlock :
  Z -> ProposedBlockArgs Transaction
  -> option bestProposedWork * Z * option error.
Variable proposingCtx_Done :
  ProposedBlockMsg Transaction bestProposedWork -> option error.

Implicit Types m : Miner RpcClient ProposerClient.

Local Abbreviation run := (ProposedBlock CalcGasLimit simulateProposedBlock proposingCtx_Done).

(** A run that passes the three checks is what the simulation and the
    hand-off make of it. *)
Lemma ProposedBlock_checks_passed m now relay blockNumber prevHash reward gasLimit
    gasUsed txs unReverted :
  now < endOfProposingWindow m ->
  gasUsed <= currentGasLimit (miner_worker m) ->
  gasLimit = CalcGasLimit (prevBlockGasLimit (miner_worker m))
                          (GasCeil (config (miner_worker m))) ->
  let timeout := time_Until now (endOfProposingWindow m) in
  let args :=
    proposalArgs relay blockNumber prevHash reward gasLimit gasUsed txs unReverted in
  run m now relay blockNumber prevHash reward gasLimit gasUsed txs unReverted
  = match simulateProposedBlock timeout args with
    | (_, d, Some e) =>
        {| simDuration := d; err := Some (ErrSimulationFailed e);
           events := [EvSimulate timeout args] |}
    | (None, d, None) =>
        {| simDuration := d; err := None; events := [EvSimulate timeout args] |}
    | (Some simWork, d, None) =>
        let msg := {| pb_args := args; pb_simulatedWork := simWork;
                      pb_simDuration := d |} in
        match proposingCtx_Done msg with
        | Some ctxErr =>
            {| simDuration := d; err := Some (ErrContextTimeout ctxErr);
               events := [EvSimulate timeout args] |}
        | None =>
            {| simDuration := d; err := None;
               events := [EvSimulate timeout args; EvEnqueue msg] |}
        end
    end.
Proof.
  intros Hn Hg Hd. apply (proj2 (time_Until_pos _ _)) in Hn. cbv zeta.
  unfold ProposedBlock, proposalArgs.
  destruct (Z.leb_spec (time_Until now (endOfProposingWindow m)) 0); [lia|].
  destruct (Z.gtb_spec gasUsed (currentGasLimit (miner_worker m))); [lia|].
  destruct (Z.eqb_spec (CalcGasLimit (prevBlockGasLimit (miner_worker m))
                                     (GasCeil (config (miner_worker m)))) gasLimit);
    [|congruence].
  reflexivity.
Qed.

(** The stage at which a run ends. *)
Lemma ProposedBlock_stage m now relay blockNumber prevHash reward gasLimit gasUsed
    txs unReverted :
  let r := run m now relay blockNumber prevHash reward gasLimit gasUsed txs unReverted in
  let desired := CalcGasLimit (prevBlockGasLimit (miner_worker m))
                              (GasCeil (config (miner_worker m))) in
  (endOfProposingWindow m <= now
   /\ r = {| simDuration := 0;
             err := Some (ErrTooLate (endOfProposingWindow m)
                            (time_Until now (endOfProposingWindow m)));
             events := [] |})
  \/ (now < endOfProposingWindow m /\ currentGasLimit (miner_worker m) < gasUsed
      /\ r = {| simDuration := 0;
                err := Some (ErrGasUsedExceeds gasUsed (currentGasLimit (miner_worker m)));
                events := [] |})
  \/ (now < endOfProposingWindow m /\ gasUsed <= currentGasLimit (miner_worker m)
      /\ gasLimit <> desired
      /\ r = {| simDuration := 0; err := Some (ErrGasLimitDiffers gasLimit desired);
                events := [] |})
  \/ (now < endOfProposingWindow m /\ gasUsed <= currentGasLimit (miner_worker m)
      /\ gasLimit = desired).
Proof.
  cbv zeta.
  destruct (Z_le_gt_dec (endOfProposingWindow m) now) as [Hl|Hn].
  { left. split; [done|]. by apply ProposedBlock_late. }
  right. destruct (Z_lt_le_dec (currentGasLimit (miner_worker m)) gasUsed) as [Hg|Hg].
  { left. split_and!; [lia|done|]. apply ProposedBlock_gasUsed_exceeds; [lia|done]. }
  right.
  destruct (Z.eq_dec gasLimit (CalcGasLimit (prevBlockGasLimit (miner_worker m))
                                            (GasCeil (config (miner_worker m)))))
    as [He|He].
  - right. split_and!; [lia|done|done].
  - left. split_and!; [lia|done|done|]. apply ProposedBlock_gasLimit_differs; [lia|done|done].
Qed.

(** X8.  The too-late error is returned exactly when the clock has reached
    the end of the proposing window: a proposal arriving at the very
    instant the window ends is already rejected. *)
Theorem ProposedBlock_window_boundary m now relay blockNumber prevHash reward gasLimit
    gasUsed txs unReverted :
  let r := run m now relay blockNumber prevHash reward gasLimit gasUsed txs unReverted in
  ((exists window late, err r = Some (ErrTooLate window late))
   <-> endOfProposingWindow m <= now)
  /\ (now = endOfProposingWindow m ->
      err r = Some (ErrTooLate (endOfProposingWindow m) 0) /\ events r = []).
Proof.
  cbv zeta. split.
  - split.
    + intros (w & l & He).
      destruct (ProposedBlock_stage m now relay blockNumber prevHash reward gasLimit
                  gasUsed txs unReverted)
        as [[Hl _]|[(_ & _ & Hr)|[(_ & _ & _ & Hr)|(Hn & Hg & Hd)]]]; [done|..].
      * rewrite Hr in He. discriminate.
      * rewrite Hr in He. discriminate.
      * rewrite (ProposedBlock_checks_passed m now relay blockNumber prevHash reward
                   gasLimit gasUsed txs unReverted Hn Hg Hd) in He.
        case_returned He; discriminate.
    + intros Hl. rewrite ProposedBlock_late by done. simpl. eauto.
  - intros ->. rewrite ProposedBlock_late by lia. simpl. split; [|done].
    do 3 f_equal. unfold time_Until, time_Sub. pose proof two63_eq. lia.
Qed.

(** X9.  When the block time, the period and [DelayLeftOver] are in their
    usual ranges and the remaining time fits a [Duration], a proposal that
    passes the checks is simulated once, under a timeout that is exactly
    the time left until the deadline. *)
Theorem ProposedBlock_simulation_timeout m now relay blockNumber prevHash reward
    gasLimit gasUsed txs unReverted :
  0 <= eth_CurrentBlock_Time m ->
  0 <= chainConfig_Parlia_Period (miner_worker m) ->
  eth_CurrentBlock_Time m + chainConfig_Parlia_Period (miner_worker m) < two63 ->
  - two63 < DelayLeftOver (config (miner_worker m)) < two63 ->
  let deadline :=
    (eth_CurrentBlock_Time m + chainConfig_Parlia_Period (miner_worker m)) * 10 ^ 9
    - DelayLeftOver (config (miner_worker m)) in
  now < deadline -> deadline - now < two63 ->
  gasUsed <= currentGasLimit (miner_worker m) ->
  gasLimit = CalcGasLimit (prevBlockGasLimit (miner_worker m))
                          (GasCeil (config (miner_worker m))) ->
  exists rest,
    events (run m now relay blockNumber prevHash reward gasLimit gasUsed txs unReverted)
    = EvSimulate (deadline - now)
        (proposalArgs relay blockNumber prevHash reward gasLimit gasUsed txs unReverted)
      :: rest
    /\ (rest = [] \/ exists msg, rest = [EvEnqueue msg]).
Proof.
  intros Ht Hp Hs Hd deadline Hn Hfit Hg He.
  pose proof (endOfProposingWindow_exact m Ht Hp Hs Hd) as Hw. fold deadline in Hw.
  rewrite (ProposedBlock_checks_passed m now relay blockNumber prevHash reward
             gasLimit gasUsed txs unReverted) by (done || lia).
  rewrite Hw.
  assert (time_Until now deadline = deadline - now) as ->.
  { unfold time_Until, time_Sub. pose proof two63_eq. lia. }
  destruct (simulateProposedBlock _ _) as [[[w|] d] [se|]]; cbv zeta;
    try destruct (proposingCtx_Done _); simpl; eauto.
Qed.

(** X10.  An error of the simulation engine is returned wrapped, with the
    duration the engine reported; nothing is handed to the worker, also
    when the engine returned work along with the error. *)
Theorem ProposedBlock_simulation_error m now relay blockNumber prevHash reward
    gasLimit gasUsed txs unReverted w d e :
  now < endOfProposingWindow m ->
  gasUsed <= currentGasLimit (miner_worker m) ->
  gasLimit = CalcGasLimit (prevBlockGasLimit (miner_worker m))
                          (GasCeil (config (miner_worker m))) ->
  simulateProposedBlock (time_Until now (endOfProposingWindow m))
    (proposalArgs relay blockNumber prevHash reward gasLimit gasUsed txs unReverted)
  = (w, d, Some e) ->
  let r := run m now relay blockNumber prevHash reward gasLimit gasUsed txs unReverted in
  err r = Some (ErrSimulationFailed e)
  /\ simDuration r = d
  /\ enqueued r = []
  /\ simulateCalls r = 1%nat.
Proof.
  intros Hn Hg He Hs. cbv zeta.
  rewrite (ProposedBlock_checks_passed m now relay blockNumber prevHash reward
             gasLimit gasUsed txs unReverted Hn Hg He), Hs.
  by destruct w.
Qed.

(** X11.  When the simulation returns work and no error, the run ends in
    the hand-off: if the context is done first the context's error is
    returned wrapped and nothing is enqueued; otherwise exactly one message
    is enqueued, holding the arguments, the work and the duration of this
    proposal, and the run returns nil.  The duration is reported either
    way. *)
Theorem ProposedBlock_handoff m now relay blockNumber prevHash reward gasLimit
    gasUsed txs unReverted w d :
  now < endOfProposingWindow m ->
  gasUsed <= currentGasLimit (miner_worker m) ->
  gasLimit = CalcGasLimit (prevBlockGasLimit (miner_worker m))
                          (GasCeil (config (miner_worker m))) ->
  simulateProposedBlock (time_Until now (endOfProposingWindow m))
    (proposalArgs relay blockNumber prevHash reward gasLimit gasUsed txs unReverted)
  = (Some w, d, None) ->
  let r := run m now relay blockNumber prevHash reward gasLimit gasUsed txs unReverted in
  let msg :=
    {| pb_args := proposalArgs relay blockNumber prevHash reward gasLimit gasUsed txs
                    unReverted;
       pb_simulatedWork := w; pb_simDuration := d |} in
  simDuration r = d
  /\ simulateCalls r = 1%nat
  /\ match proposingCtx_Done msg with
     | Some ctxErr => err r = Some (ErrContextTimeout ctxErr) /\ enqueued r = []
     | None => err r = None /\ enqueued r = [msg]
     end.
Proof.
  intros Hn Hg He Hs. cbv zeta.
  rewrite (ProposedBlock_checks_passed m now relay blockNumber prevHash reward
             gasLimit gasUsed txs unReverted Hn Hg He), Hs.
  cbv zeta. by destruct (proposingCtx_Done _).
Qed.

(** X12.  In every run the simulation is invoked at most once and at most
    one message is enqueued.  A message is enqueued only by a run that
    returns nil, was in time, had [gasUsed] within the current limit and
    the expected [gasLimit], and it holds the proposal's arguments and the
    work the simulation returned for them.  A run that did not reach the
    simulation reports duration zero and an error. *)
Theorem ProposedBlock_enqueue_invariant m now relay blockNumber prevHash reward
    gasLimit gasUsed txs unReverted :
  let r := run m now relay blockNumber prevHash reward gasLimit gasUsed txs unReverted in
  let args :=
    proposalArgs relay blockNumber prevHash reward gasLimit gasUsed txs unReverted in
  (simulateCalls r <= 1 /\ length (enqueued r) <= simulateCalls r)%nat
  /\ (forall msg, msg ∈ enqueued r ->
      err r = None
      /\ now < endOfProposingWindow m
      /\ gasUsed <= currentGasLimit (miner_worker m)
      /\ gasLimit = CalcGasLimit (prevBlockGasLimit (miner_worker m))
                                 (GasCeil (config (miner_worker m)))
      /\ pb_args msg = args
      /\ simulateProposedBlock (time_Until now (endOfProposingWindow m)) args
         = (Some (pb_simulatedWork msg), pb_simDuration msg, None)
      /\ simDuration r = pb_simDuration msg)
  /\ (simulateCalls r = 0%nat -> simDuration r = 0 /\ err r <> None).
Proof.
  cbv zeta.
  destruct (ProposedBlock_stage m now relay blockNumber prevHash reward gasLimit
              gasUsed txs unReverted)
    as [[_ Hr]|[(_ & _ & Hr)|[(_ & _ & _ & Hr)|(Hn & Hg & Hd)]]].
  1-3: rewrite Hr; unfold simulateCalls, enqueued; simpl; split_and!;
       [lia|lia|intros msg Hin; by apply not_elem_of_nil in Hin|done].
  rewrite (ProposedBlock_checks_passed m now relay blockNumber prevHash reward
             gasLimit gasUsed txs unReverted Hn Hg Hd).
  destruct (simulateProposedBlock _ _) as [[[w|] d] [se|]] eqn:Hs; cbv zeta;
    try destruct (proposingCtx_Done _);
    unfold simulateCalls, enqueued; simpl; split_and!;
    try lia; try discriminate;
    try (intros msg Hin; by apply not_elem_of_nil in Hin).
  intros msg Hin. apply list_elem_of_singleton in Hin as ->. simpl. done.
Qed.

End PipelineExtras.

(** ** The builder bid ingress *)

Section BidExtras.

Import ethapi.

Context {Transaction PublicKey : Type}.
Variable IsHexAddress : string -> bool.
Variable HexToAddress : string -> Address.
Variable Hash_Hex : Hash -> string.
Variable UnmarshalBinary : list Byte.byte -> result Transaction.
Variable rlp_EncodeToBytes : option BidMessage -> result (list Byte.byte).
Variable hexutil_Decode : string -> result (list Byte.byte).
Variable Ecrecover : list Byte.byte -> list Byte.byte -> result (list Byte.byte).
Variable UnmarshalPubkey : list Byte.byte -> result PublicKey.
Variable PubkeyToAddress : PublicKey -> Address.

Implicit Types b : Backend Transaction.
Implicit Types msg : BidMessage.

Local Abbreviation bid :=
  (Bid IsHexAddress HexToAddress Hash_Hex UnmarshalBinary rlp_EncodeToBytes
       hexutil_Decode Ecrecover UnmarshalPubkey PubkeyToAddress).
Local Abbreviation decodes :=
  (Forall2 (fun (encodedTx : list Byte.byte) (tx : Transaction) =>
              UnmarshalBinary encodedTx = Ok tx)).

Lemma big_Cmp_eq x y : (big_Cmp x y =? 0) = true <-> x = y.
Proof.
  unfold big_Cmp. destruct (Z.compare_spec x y); simpl; split; intros; lia || done.
Qed.

Lemma decodeTxs_ok_iff encoded acc txs :
  decodeTxs UnmarshalBinary encoded acc = Ok txs
  <-> exists new, txs = acc ++ new /\ decodes encoded new.
Proof.
  revert acc. induction encoded as [|e l IH]; intros acc; simpl.
  - split.
    + intros [= <-]. exists []. by rewrite app_nil_r.
    + intros (new & -> & Hf). apply Forall2_nil_inv_l in Hf as ->.
      by rewrite app_nil_r.
  - destruct (UnmarshalBinary e) as [tx|err] eqn:Hu.
    + rewrite IH. split.
      * intros (new & -> & Hf). exists (tx :: new).
        rewrite <- app_assoc. split; [done|]. by constructor.
      * intros (new & -> & Hf). apply Forall2_cons_inv_l in Hf as (tx' & new' & Htx & Hf & ->).
        assert (tx' = tx) as -> by congruence.
        exists new'. by rewrite <- app_assoc.
    + split; [discriminate|]. intros (new & _ & Hf).
      apply Forall2_cons_inv_l in Hf as (tx' & new' & Htx & _ & _). congruence.
Qed.

Lemma decodeTxs_err_iff encoded acc e :
  decodeTxs UnmarshalBinary encoded acc = Err e
  <-> exists pre pre_txs bad rest cause,
        encoded = pre ++ bad :: rest /\ decodes pre pre_txs
        /\ UnmarshalBinary bad = Err cause /\ e = ErrInvalidTxs cause.
Proof.
  revert acc. induction encoded as [|x l IH]; intros acc; simpl.
  - split; [discriminate|]. intros (pre & ? & ? & ? & ? & Hl & _).
    by destruct pre.
  - destruct (UnmarshalBinary x) as [tx|err] eqn:Hu.
    + rewrite IH. split.
      * intros (pre & ptx & bad & rest & cause & -> & Hf & Hb & ->).
        exists (x :: pre), (tx :: ptx), bad, rest, cause. split_and!; try done.
        by constructor.
      * intros (pre & ptx & bad & rest & cause & Hl & Hf & Hb & ->).
        destruct pre as [|y pre]; simpl in Hl.
        { injection Hl as -> ->. congruence. }
        injection Hl as -> ->.
        apply Forall2_cons_inv_l in Hf as (tx' & ptx' & _ & Hf & ->).
        exists pre, ptx', bad, rest, cause. done.
    + split.
      * intros [= <-]. exists [], [], x, l, err. split_and!; done.
      * intros (pre & ptx & bad & rest & cause & Hl & Hf & Hb & ->).
        destruct pre as [|y pre]; simpl in Hl.
        { injection Hl as -> ->. congruence. }
        injection Hl as -> ->.
        apply Forall2_cons_inv_l in Hf as (tx' & ptx' & Htx & _ & _). congruence.
Qed.

(** X13.  [checkBasic] accepts a bid exactly when it has a message with a
    non-zero block number, a parent hash, positive gas limit and gas
    value, a builder fee that is not negative and strictly below the gas
    value, and a non-empty builder address of hex-address form. *)
Theorem checkBasic_accepts_iff args :
  checkBasic IsHexAddress args = Returned None
  <-> exists msg, Message args = Some msg
        /\ Block msg <> 0 /\ ParentHash msg <> "" /\ 0 < GasLimit msg
        /\ 0 < GasValue msg /\ 0 <= BuilderFeeValue msg
        /\ BuilderFeeValue msg < GasValue msg
        /\ BuilderAddress msg <> "" /\ IsHexAddress (BuilderAddress msg) = true.
Proof.
  split; [apply checkBasic_accepts|].
  intros (msg & Hm & Hb & Hp & Hl & Hv & Hf & Hlt & Ha & Hx).
  unfold checkBasic. rewrite Hm. simpl.
  destruct (Z.eqb_spec (Block msg) 0); [done|].
  destruct (String.eqb_spec (ParentHash msg) ""); [done|].
  destruct (Z.leb_spec (GasLimit msg) 0); [lia|].
  destruct (Z.leb_spec (GasValue msg) 0); [lia|].
  destruct (Z.ltb_spec (BuilderFeeValue msg) 0); [lia|].
  destruct (Z.leb_spec (GasValue msg) (BuilderFeeValue msg)); [lia|].
  destruct (String.eqb_spec (BuilderAddress msg) ""); [done|].
  by rewrite Hx.
Qed.

(** X14.  The transaction loop of [checkBlock] decodes every raw
    transaction, in order: it succeeds exactly when all of them decode,
    with the decoded transactions in the order of the raw ones; it fails
    exactly at the first raw transaction that does not decode, with that
    decoder error wrapped as an invalid-txs error. *)
Theorem decodeTxs_in_order encoded :
  (forall txs, decodeTxs UnmarshalBinary encoded [] = Ok txs <-> decodes encoded txs)
  /\ (forall e, decodeTxs UnmarshalBinary encoded [] = Err e
      <-> exists pre pre_txs bad rest cause,
            encoded = pre ++ bad :: rest /\ decodes pre pre_txs
            /\ UnmarshalBinary bad = Err cause /\ e = ErrInvalidTxs cause).
Proof.
  split.
  - intros txs. rewrite decodeTxs_ok_iff. simpl.
    split; [by intros (new & -> & Hf)|intros Hf; by exists txs].
  - intros e. apply decodeTxs_err_iff.
Qed.

(** X15.  [checkBlock] accepts a bid exactly when its block number is the
    head's number plus one, its parent hash is the hex form of the head's
    hash, and all its raw transactions decode; it then returns the decoded
    transactions in order. *)
Theorem checkBlock_accepts_iff msg sig currentBlock txs :
  checkBlock Hash_Hex UnmarshalBinary
    {| Message := Some msg; Signature := sig |} currentBlock = Returned (Ok txs)
  <-> Block msg = blk_Number currentBlock + 1
      /\ ParentHash msg = Hash_Hex (blk_Hash currentBlock)
      /\ decodes (Txs msg) txs.
Proof.
  unfold checkBlock. simpl.
  destruct (big_Cmp (Block msg) (blk_Number currentBlock + 1) =? 0) eqn:Hc; simpl.
  - apply big_Cmp_eq in Hc.
    destruct (String.eqb_spec (ParentHash msg) (Hash_Hex (blk_Hash currentBlock))); simpl.
    + split.
      * intros [= Hd]. apply decodeTxs_ok_iff in Hd as (new & -> & Hf). done.
      * intros (_ & _ & Hf). f_equal. apply decodeTxs_ok_iff. by exists txs.
    + split; [discriminate|]. intros (_ & ? & _). done.
  - split; [discriminate|]. intros (Hb & _). apply big_Cmp_eq in Hb. congruence.
Qed.

(** X16.  [checkSignature] accepts a bid exactly when the message encodes,
    the signature string decodes, a public key is recovered and parsed,
    and the address of that key is the declared builder address. *)
Theorem checkSignature_accepts_iff msg sig :
  checkSignature HexToAddress rlp_EncodeToBytes hexutil_Decode Ecrecover
    UnmarshalPubkey PubkeyToAddress {| Message := Some msg; Signature := sig |}
  = Returned None
  <-> exists hash sigBytes sigPublicKey pk,
        rlp_EncodeToBytes (Some msg) = Ok hash
        /\ hexutil_Decode sig = Ok sigBytes
        /\ Ecrecover hash sigBytes = Ok sigPublicKey
        /\ UnmarshalPubkey sigPublicKey = Ok pk
        /\ PubkeyToAddress pk = HexToAddress (BuilderAddress msg).
Proof.
  unfold checkSignature, hexutil_MustDecode. simpl.
  destruct (rlp_EncodeToBytes (Some msg)) as [hash|e1] eqn:H1.
  2: { split; [discriminate|]. intros (? & ? & ? & ? & [=] & _). }
  destruct (hexutil_Decode sig) as [sigBytes|e2] eqn:H2; simpl.
  2: { split; [discriminate|]. intros (? & ? & ? & ? & _ & [=] & _). }
  destruct (Ecrecover hash sigBytes) as [pub|e3] eqn:H3.
  2: { split; [discriminate|]. intros (? & ? & ? & ? & [= <-] & [= <-] & Hr & _).
       congruence. }
  destruct (UnmarshalPubkey pub) as [pk|e4] eqn:H4; simpl.
  2: { split; [discriminate|].
       intros (? & ? & ? & ? & [= <-] & [= <-] & Hr & Hu & _). congruence. }
  destruct (N.eqb_spec (PubkeyToAddress pk) (HexToAddress (BuilderAddress msg)))
    as [Heq|Hne]; simpl.
  - split; [|done]. intros _. by exists hash, sigBytes, pub, pk.
  - split; [discriminate|].
    intros (? & ? & ? & ? & [= <-] & [= <-] & Hr & Hu & Ha).
    rewrite H3 in Hr. injection Hr as <-. rewrite H4 in Hu. injection Hu as <-. done.
Qed.

Local Abbreviation check_signature :=
  (checkSignature HexToAddress rlp_EncodeToBytes hexutil_Decode Ecrecover
     UnmarshalPubkey PubkeyToAddress).

(** A call of the backend's [Bid] is not among the calls made before it. *)
Ltac no_CallBid H :=
  repeat (apply elem_of_cons in H as [H|H]; [discriminate H|]);
  by apply not_elem_of_nil in H.

Lemma Bid_accepted b args msg txs :
  BuilderEnabled b = true ->
  checkBasic IsHexAddress args = Returned None ->
  checkBlock Hash_Hex UnmarshalBinary args (CurrentBlock b) = Returned (Ok txs) ->
  check_signature args = Returned None ->
  Message args = Some msg ->
  bid b args
  = ([CallBuilderEnabled; CallCurrentBlock;
      CallBid (HexToAddress (BuilderAddress msg)) (Block msg) txs (GasValue msg)
              (BuilderFeeValue msg) (GasLimit msg)],
     Returned (Backend_Bid b (HexToAddress (BuilderAddress msg)) (Block msg) txs
                           (GasValue msg) (BuilderFeeValue msg) (GasLimit msg))).
Proof. intros Hb Hc Hk Hs Hm. unfold Bid. by rewrite Hb, Hc, Hk, Hs, Hm. Qed.

(** X17.  The backend's [Bid] is called exactly when the builder API is
    enabled and the bid passes [checkBasic], [checkBlock] and
    [checkSignature]; it is then called once, after the chain head was
    read, with the declared builder address, the block number, the decoded
    transactions, the gas value, the builder fee and the gas limit of the
    message, and what it returns is what [Bid] returns. *)
Theorem Bid_forwards_iff b args builder block txs gasValue fee gasLimit :
  let accepted :=
    BuilderEnabled b = true
    /\ checkBasic IsHexAddress args = Returned None
    /\ checkBlock Hash_Hex UnmarshalBinary args (CurrentBlock b) = Returned (Ok txs)
    /\ check_signature args = Returned None
    /\ exists msg, Message args = Some msg
         /\ builder = HexToAddress (BuilderAddress msg) /\ block = Block msg
         /\ gasValue = GasValue msg /\ fee = BuilderFeeValue msg
         /\ gasLimit = GasLimit msg in
  (CallBid builder block txs gasValue fee gasLimit ∈ (bid b args).1 <-> accepted)
  /\ (accepted ->
      bid b args
      = ([CallBuilderEnabled; CallCurrentBlock;
          CallBid builder block txs gasValue fee gasLimit],
         Returned (Backend_Bid b builder block txs gasValue fee gasLimit))).
Proof.
  cbv zeta. split; [split|].
  - unfold Bid. destruct (BuilderEnabled b) eqn:Hb; simpl; [|intros Hin; no_CallBid Hin].
    destruct (checkBasic IsHexAddress args) as [[e|]|p] eqn:Hc;
      [intros Hin; no_CallBid Hin| |intros Hin; no_CallBid Hin].
    destruct (checkBlock Hash_Hex UnmarshalBinary args (CurrentBlock b))
      as [[txs'|e]|p] eqn:Hk; [|intros Hin; no_CallBid Hin..].
    destruct (check_signature args) as [[e|]|p] eqn:Hs;
      [intros Hin; no_CallBid Hin| |intros Hin; no_CallBid Hin].
    destruct (Message args) as [msg|] eqn:Hm; simpl; [|intros Hin; no_CallBid Hin].
    intros Hin.
    apply elem_of_cons in Hin as [Hin|Hin]; [discriminate Hin|].
    apply elem_of_cons in Hin as [Hin|Hin]; [discriminate Hin|].
    apply list_elem_of_singleton in Hin. injection Hin as -> -> -> -> -> ->.
    split_and!; try done. by exists msg.
  - intros (Hb & Hc & Hk & Hs & msg & Hm & -> & -> & -> & -> & ->).
    rewrite (Bid_accepted b args msg txs) by done. simpl.
    do 2 apply list_elem_of_further. apply list_elem_of_here.
  - intros (Hb & Hc & Hk & Hs & msg & Hm & -> & -> & -> & -> & ->).
    by apply Bid_accepted.
Qed.

(** X18.  [Bid] panics exactly when the builder API is enabled and either
    the bid has no message, or the bid passes [checkBasic] and
    [checkBlock], its message encodes, and its signature string does not
    decode.  With the builder API disabled it returns the not-enabled
    error for every argument, a nil message included. *)
Theorem Bid_crash_conditions b args :
  ((exists p, (bid b args).2 = Panicked p)
   <-> BuilderEnabled b = true
       /\ (Message args = None
           \/ (checkBasic IsHexAddress args = Returned None
               /\ (exists txs, checkBlock Hash_Hex UnmarshalBinary args (CurrentBlock b)
                               = Returned (Ok txs))
               /\ (exists hash, rlp_EncodeToBytes (Message args) = Ok hash)
               /\ exists e, hexutil_Decode (Signature args) = Err e)))
  /\ (BuilderEnabled b = false ->
      bid b args = ([CallBuilderEnabled], Returned (Some ErrBuilderNotEnabled))).
Proof.
  split.
  2: { intros Hb. unfold Bid. by rewrite Hb. }
  unfold Bid. destruct (BuilderEnabled b) eqn:Hb; simpl.
  2: { split; [intros (p & [=])|intros ([=] & _)]. }
  destruct (Message args) as [msg|] eqn:Hm.
  2: { unfold checkBasic. rewrite Hm. simpl. split; [eauto|eauto]. }
  destruct (checkBasic IsHexAddress args) as [[e|]|p] eqn:Hc.
  - simpl. split; [intros (p & [=])|].
    intros (_ & [[=]|([=] & _)]).
  - destruct (checkBlock Hash_Hex UnmarshalBinary args (CurrentBlock b))
      as [[txs|e]|p] eqn:Hk.
    + unfold checkSignature, hexutil_MustDecode. rewrite Hm.
      destruct (rlp_EncodeToBytes (Some msg)) as [hash|e1] eqn:H1; simpl.
      2: { split; [intros (p & [=])|]. intros (_ & [[=]|(_ & _ & (h & [=]) & _)]). }
      destruct (hexutil_Decode (Signature args)) as [sigBytes|e2] eqn:H2; simpl.
      2: { split; [|eauto]. intros _. split; [done|]. right. eauto 10. }
      destruct (Ecrecover hash sigBytes) as [pub|e3];
        [|simpl; split; [intros (p & [=])|intros (_ & [[=]|(_ & _ & _ & (h & [=]))])]].
      destruct (UnmarshalPubkey pub) as [pk|e4]; simpl;
        [|split; [intros (p & [=])|intros (_ & [[=]|(_ & _ & _ & (h & [=]))])]].
      destruct (negb (N.eqb (PubkeyToAddress pk) (HexToAddress (BuilderAddress msg))));
        simpl; (split; [intros (p & [=])|intros (_ & [[=]|(_ & _ & _ & (h & [=]))])]).
    + simpl. split; [intros (p & [=])|].
      intros (_ & [[=]|(_ & (t & [=]) & _)]).
    + exfalso. unfold checkBlock in Hk. rewrite Hm in Hk. simpl in Hk.
      repeat case_match; discriminate.
  - exfalso. unfold checkBasic in Hc. rewrite Hm in Hc. simpl in Hc.
    repeat case_match; discriminate.
Qed.

End BidExtras.

(** ** The relay block-proposal ingress *)

Section ProposeBlockExtras.

Import grpc.

Context {Transaction : Type}.
Variable UnmarshalBinary : list Byte.byte -> result Transaction.
Variable HexToHash : string -> Hash.

Implicit Types p : Proposer Transaction.

Local Abbreviation decodes :=
  (Forall2 (fun (encodedTx : list Byte.byte) (tx : Transaction) =>
              UnmarshalBinary encodedTx = Ok tx)).

Lemma decodePayload_ok_iff payload acc txs :
  decodePayload UnmarshalBinary payload acc = Ok txs
  <-> exists new, txs = acc ++ new /\ decodes payload new.
Proof.
  revert acc. induction payload as [|e l IH]; intros acc; simpl.
  - split.
    + intros [= <-]. exists []. by rewrite app_nil_r.
    + intros (new & -> & Hf). apply Forall2_nil_inv_l in Hf as ->.
      by rewrite app_nil_r.
  - destruct (UnmarshalBinary e) as [tx|err] eqn:Hu.
    + rewrite IH. split.
      * intros (new & -> & Hf). exists (tx :: new).
        rewrite <- app_assoc. split; [done|]. by constructor.
      * intros (new & -> & Hf).
        apply Forall2_cons_inv_l in Hf as (tx' & new' & Htx & Hf & ->).
        assert (tx' = tx) as -> by congruence.
        exists new'. by rewrite <- app_assoc.
    + split; [discriminate|]. intros (new & _ & Hf).
      apply Forall2_cons_inv_l in Hf as (tx' & new' & Htx & _ & _). congruence.
Qed.

Lemma decodePayload_first_error pre pre_txs bad rest cause acc :
  decodes pre pre_txs ->
  UnmarshalBinary bad = Err cause ->
  decodePayload UnmarshalBinary (pre ++ bad :: rest) acc = Err cause.
Proof.
  intros Hf Hb. revert acc. induction Hf as [|x tx pre ptx Hx Hf IH]; intros acc; simpl.
  - by rewrite Hb.
  - rewrite Hx. apply IH.
Qed.

(** What [ProposeBlock] does with a request that passes its three checks
    and whose transactions decode. *)
Lemma ProposeBlock_valid p receivedAt responseSentAt in_ txs :
  Payload in_ <> [] ->
  BlockNumber in_ <> 0 ->
  ethapi.blk_Number (ethapi.CurrentBlock (backend p)) < BlockNumber in_ ->
  decodes (Payload in_) txs ->
  ProposeBlock UnmarshalBinary HexToHash p receivedAt responseSentAt in_
  = ([ethapi.CallCurrentBlock;
      ethapi.CallProposedBlock (MevRelay in_) (BlockNumber in_)
        (HexToHash (PrevBlockHash in_)) (BlockReward in_) (GasLimit in_)
        (GasUsed in_) txs ∅],
     match ethapi.Backend_ProposedBlock (backend p) (MevRelay in_) (BlockNumber in_)
             (HexToHash (PrevBlockHash in_)) (BlockReward in_) (GasLimit in_)
             (GasUsed in_) txs ∅ with
     | (_, Some e) => Err (ErrStatusInternal e)
     | (simDuration, None) =>
         Ok {| ReceivedAt := receivedAt; SimulatedDuration := simDuration;
               ResponseSentAt := responseSentAt |}
     end).
Proof.
  intros Hp Hz Hh Hd. unfold ProposeBlock.
  destruct (Payload in_) as [|tx0 payload] eqn:Hpl; [done|].
  simpl length. simpl Nat.eqb. cbv iota.
  destruct (Z.eqb_spec (BlockNumber in_) 0); [done|].
  destruct (big_Cmp (BlockNumber in_) (ethapi.blk_Number (ethapi.CurrentBlock (backend p)))
            <? 1) eqn:Hc.
  { apply big_Cmp_le in Hc. lia. }
  assert (decodePayload UnmarshalBinary (tx0 :: payload) [] = Ok txs) as ->.
  { apply decodePayload_ok_iff. by exists txs. }
  cbv zeta. by destruct (ethapi.Backend_ProposedBlock _ _ _ _ _ _ _ _ _) as [d [e|]].
Qed.

Lemma ProposeBlock_undecodable p receivedAt responseSentAt in_ e :
  Payload in_ <> [] ->
  BlockNumber in_ <> 0 ->
  ethapi.blk_Number (ethapi.CurrentBlock (backend p)) < BlockNumber in_ ->
  decodePayload UnmarshalBinary (Payload in_) [] = Err e ->
  ProposeBlock UnmarshalBinary HexToHash p receivedAt responseSentAt in_
  = ([ethapi.CallCurrentBlock], Err e).
Proof.
  intros Hp Hz Hh Hd. unfold ProposeBlock.
  destruct (Nat.eqb_spec (length (Payload in_)) 0) as [Hl|_].
  { by apply nil_length_inv in Hl. }
  destruct (Z.eqb_spec (BlockNumber in_) 0); [done|].
  destruct (big_Cmp (BlockNumber in_) (ethapi.blk_Number (ethapi.CurrentBlock (backend p)))
            <? 1) eqn:Hc.
  { apply big_Cmp_le in Hc. lia. }
  by rewrite Hd.
Qed.

(** X19.  The pipeline is invoked at most once per request, and exactly
    when the payload is not empty, the block number is not zero and is
    above the number of the chain head, and every transaction of the
    payload decodes. *)
Theorem ProposeBlock_invokes_pipeline_iff p receivedAt responseSentAt in_ :
  let r := ProposeBlock UnmarshalBinary HexToHash p receivedAt responseSentAt in_ in
  (pipelineCalls r.1 <= 1)%nat
  /\ (pipelineCalls r.1 = 1%nat
      <-> Payload in_ <> [] /\ BlockNumber in_ <> 0
          /\ ethapi.blk_Number (ethapi.CurrentBlock (backend p)) < BlockNumber in_
          /\ exists txs, decodes (Payload in_) txs).
Proof.
  cbv zeta. unfold pipelineCalls.
  destruct (Payload in_) as [|tx0 payload] eqn:Hpl.
  { unfold ProposeBlock. rewrite Hpl. simpl. split; [lia|]. split; [done|]. by intros [? _]. }
  destruct (Z.eq_dec (BlockNumber in_) 0) as [Hz|Hz].
  { unfold ProposeBlock. rewrite Hpl, Hz. simpl. split; [lia|].
    split; [done|]. by intros (_ & ? & _). }
  destruct (Z_lt_le_dec (ethapi.blk_Number (ethapi.CurrentBlock (backend p)))
                        (BlockNumber in_)) as [Hh|Hh].
  2: { unfold ProposeBlock. rewrite Hpl. simpl length. simpl Nat.eqb. cbv iota.
       destruct (Z.eqb_spec (BlockNumber in_) 0); [done|].
       rewrite (proj2 (big_Cmp_le _ _) Hh). simpl. split; [lia|].
       split; [done|]. intros (_ & _ & ? & _). lia. }
  destruct (decodePayload UnmarshalBinary (Payload in_) []) as [txs|e] eqn:Hd.
  - apply decodePayload_ok_iff in Hd as (new & -> & Hf). simpl in Hf.
    rewrite <- Hpl.
    rewrite (ProposeBlock_valid p receivedAt responseSentAt in_ new)
      by (done || congruence).
    simpl. split; [done|]. split; [|done]. intros _. split_and!; try done; [congruence|eauto].
  - rewrite <- Hpl in *.
    rewrite (ProposeBlock_undecodable p receivedAt responseSentAt in_ e)
      by (done || congruence).
    simpl. split; [lia|]. split; [done|].
    intros (_ & _ & _ & txs & Hf).
    assert (decodePayload UnmarshalBinary (Payload in_) [] = Ok txs) as Hok.
    { apply decodePayload_ok_iff. by exists txs. }
    congruence.
Qed.

(** X20.  For a request that passes the checks and whose transactions
    decode, the pipeline gets the relay, the block number, the hash of the
    previous block, the reward, the gas limit and the gas used of the
    request, the decoded transactions in order and an empty set of hashes;
    an error of the pipeline is returned wrapped with the internal status
    code, and otherwise the response carries the duration the pipeline
    returned between the two clock readings. *)
Theorem ProposeBlock_forwards p receivedAt responseSentAt in_ txs :
  Payload in_ <> [] ->
  BlockNumber in_ <> 0 ->
  ethapi.blk_Number (ethapi.CurrentBlock (backend p)) < BlockNumber in_ ->
  decodes (Payload in_) txs ->
  let r := ProposeBlock UnmarshalBinary HexToHash p receivedAt responseSentAt in_ in
  let answer :=
    ethapi.Backend_ProposedBlock (backend p) (MevRelay in_) (BlockNumber in_)
      (HexToHash (PrevBlockHash in_)) (BlockReward in_) (GasLimit in_)
      (GasUsed in_) txs ∅ in
  r.1 = [ethapi.CallCurrentBlock;
         ethapi.CallProposedBlock (MevRelay in_) (BlockNumber in_)
           (HexToHash (PrevBlockHash in_)) (BlockReward in_) (GasLimit in_)
           (GasUsed in_) txs ∅]
  /\ (forall e, answer.2 = Some e -> r.2 = Err (ErrStatusInternal e))
  /\ (answer.2 = None ->
      r.2 = Ok {| ReceivedAt := receivedAt; SimulatedDuration := answer.1;
                  ResponseSentAt := responseSentAt |}).
Proof.
  intros Hp Hz Hh Hd. cbv zeta.
  rewrite (ProposeBlock_valid p receivedAt responseSentAt in_ txs) by done. simpl.
  destruct (ethapi.Backend_ProposedBlock _ _ _ _ _ _ _ _ _) as [d [e|]]; simpl.
  - split_and!; [done| |done]. by intros ? [= ->].
  - split_and!; done.
Qed.

(** X21.  When a transaction of the payload does not decode, the request
    is answered with the decoder's own error of the first such
    transaction, not wrapped, and the pipeline is not invoked. *)
Theorem ProposeBlock_decode_error p receivedAt responseSentAt in_ pre pre_txs bad rest
    cause :
  BlockNumber in_ <> 0 ->
  ethapi.blk_Number (ethapi.CurrentBlock (backend p)) < BlockNumber in_ ->
  Payload in_ = pre ++ bad :: rest ->
  decodes pre pre_txs ->
  UnmarshalBinary bad = Err cause ->
  ProposeBlock UnmarshalBinary HexToHash p receivedAt responseSentAt in_
  = ([ethapi.CallCurrentBlock], Err cause).
Proof.
  intros Hz Hh Hpl Hf Hb. apply ProposeBlock_undecodable; try done.
  - rewrite Hpl. by destruct pre.
  - rewrite Hpl. by apply (decodePayload_first_error pre pre_txs).
Qed.

End ProposeBlockExtras.

(** ** The gRPC server's authentication *)

Section AuthExtras.

Import grpcapi.

Context {ProposerT Server Req HandlerResult : Type}.
Variable base64_EncodeToString : list Byte.byte -> string.

Implicit Types a : API ProposerT Server.
Implicit Types ctx : option (gmap string (list string)).
Implicit Types handler : option (gmap string (list string)) -> Req -> HandlerResult.

(** X22.  A request reaches the handler exactly when no auth header is
    configured, or the incoming context has metadata whose first
    [authorization] value is the configured header (further values are not
    looked at); the handler then gets the context and the request as they
    came, and its result is returned.  A request that is turned away never
    reaches the handler: without metadata, with no [authorization] value,
    or with a first value that differs, each with its own error. *)
Theorem authenticate_passes_iff a ctx (req : Req) handler :
  ((exists res, authenticate a ctx req handler = Pass res)
   <-> authHeader a = ""
       \/ exists md rest, ctx = Some md
            /\ md !! "authorization" = Some (authHeader a :: rest))
  /\ (forall res, authenticate a ctx req handler = Pass res -> res = handler ctx req)
  /\ (authHeader a <> "" ->
      (ctx = None -> authenticate a ctx req handler = Reject ErrCouldNotReadMetadata)
      /\ (forall md, ctx = Some md ->
          md !! "authorization" = None \/ md !! "authorization" = Some [] ->
          authenticate a ctx req handler = Reject ErrEmptyAuthHeader)
      /\ (forall md first rest, ctx = Some md ->
          md !! "authorization" = Some (first :: rest) -> first <> authHeader a ->
          authenticate a ctx req handler = Reject ErrIncorrectAuthHeader)).
Proof.
  unfold authenticate, readAuthMetadata.
  destruct (String.eqb_spec (authHeader a) "") as [He|He]; simpl.
  { split_and!; [split; eauto| by intros ? [= <-] | done]. }
  destruct ctx as [md|].
  2: { split_and!.
       - split; [intros (? & [=])|]. intros [?|(? & ? & [=] & _)]. done.
       - intros ? [=].
       - intros _. split_and!; [done|intros ? [=]|intros ? ? ? [=]]. }
  destruct (md !! "authorization") as [[|first rest]|] eqn:Hl; simpl.
  - split_and!.
    + split; [intros (? & [=])|]. intros [?|(? & ? & [= <-] & Hm)]; [done|]. congruence.
    + intros ? [=].
    + intros _. split_and!; [intros [=]|done|]. intros ? ? ? [= <-]. congruence.
  - destruct (String.eqb_spec first (authHeader a)) as [Hf|Hf]; simpl.
    + split_and!.
      * split; [|eauto]. intros _. right. exists md, rest. by rewrite <- Hf.
      * by intros ? [= <-].
      * intros _. split_and!; [intros [=]| |].
        -- intros ? [= <-] [?|?]; congruence.
        -- intros ? ? ? [= <-] Hm Hne. congruence.
    + split_and!.
      * split; [intros (? & [=])|]. intros [?|(? & ? & [= <-] & Hm)]; [done|]. congruence.
      * intros ? [=].
      * intros _. split_and!; [intros [=]| |].
        -- intros ? [= <-] [?|?]; congruence.
        -- by intros ? ? ? [= <-] Hm Hne.
  - split_and!.
    + split; [intros (? & [=])|]. intros [?|(? & ? & [= <-] & Hm)]; [done|]. congruence.
    + intros ? [=].
    + intros _. split_and!; [intros [=]|done|]. intros ? ? ? [= <-]. congruence.
Qed.

(** X23.  [NewAPI] configures authentication only when both the node id
    and the secret are given: with either of them empty every request
    reaches the handler, whatever its context.  With both given (and a
    non-empty encoding) a request reaches the handler exactly when its
    first [authorization] value is the base64 encoding of
    [nodeID:secret]. *)
Theorem NewAPI_authentication (prop : ProposerT) listenAddr nodeID secret ctx (req : Req)
    handler :
  let a : API ProposerT Server := NewAPI base64_EncodeToString prop listenAddr nodeID secret in
  let header :=
    base64_EncodeToString (String.list_byte_of_string (nodeID +:+ ":" +:+ secret)) in
  (nodeID = "" \/ secret = "" ->
   authenticate a ctx req handler = Pass (handler ctx req))
  /\ (nodeID <> "" -> secret <> "" -> header <> "" ->
      ((exists res, authenticate a ctx req handler = Pass res)
       <-> exists md rest, ctx = Some md /\ md !! "authorization" = Some (header :: rest))).
Proof.
  cbv zeta. split.
  - intros Hempty. unfold authenticate, NewAPI. simpl.
    assert (negb (String.eqb nodeID "") && negb (String.eqb secret "") = false) as ->.
    { destruct Hempty as [-> | ->]; simpl; [done|]. by rewrite andb_false_r. }
    done.
  - intros Hn Hs Hh. unfold authenticate, readAuthMetadata, NewAPI, encodeNodeSecret.
    simpl. apply String.eqb_neq in Hn, Hs. rewrite Hn, Hs. simpl.
    destruct (String.eqb_spec
                (base64_EncodeToString
                   (String.list_byte_of_string (nodeID +:+ ":" +:+ secret))) "")
      as [|_]; [done|]. simpl.
    destruct ctx as [md|]; [|split; [intros (? & [=])|intros (? & ? & [=] & _)]].
    destruct (md !! "authorization") as [[|first rest]|] eqn:Hl; simpl.
    + split; [intros (? & [=])|]. intros (? & ? & [= <-] & Hm). congruence.
    + destruct (String.eqb_spec first
                  (base64_EncodeToString
                     (String.list_byte_of_string (nodeID +:+ ":" +:+ secret))))
        as [->|Hne]; simpl.
      * split; [|eauto]. intros _. by exists md, rest.
      * split; [intros (? & [=])|]. intros (? & ? & [= <-] & Hm). congruence.
    + split; [intros (? & [=])|]. intros (? & ? & [= <-] & Hm). congruence.
Qed.

End AuthExtras.

(** ** The commit hash of the build *)

(** X24.  [CommitHash] is the value of the first build setting whose key
    is [vcs.revision]; it is empty when no setting has that key and when
    there is no build information. *)
Theorem CommitHash_first_revision :
  (forall pre setting post,
     Forall (fun s => version.Key s <> "vcs.revision") pre ->
     version.Key setting = "vcs.revision" ->
     version.CommitHash (Some (pre ++ setting :: post)) = version.Value setting)
  /\ (forall settings,
        Forall (fun s => version.Key s <> "vcs.revision") settings ->
        version.CommitHash (Some settings) = "")
  /\ version.CommitHash None = "".
Proof.
  unfold version.CommitHash, version.commitHash. split_and!; [| |done].
  - intros pre setting post Hpre Hk.
    assert (version.firstRevision (pre ++ setting :: post) = Some (version.Value setting))
      as ->; [|done].
    induction Hpre as [|s pre Hs _ IH]; simpl.
    + by rewrite Hk.
    + apply String.eqb_neq in Hs. by rewrite Hs.
  - intros settings Hall.
    assert (version.firstRevision settings = None) as ->; [|done].
    induction Hall as [|s l Hs _ IH]; simpl; [done|].
    apply String.eqb_neq in Hs. by rewrite Hs.
Qed.

(** ** The event loop of the miner *)

Section UpdateExtras.

Import minerloop.

Variable Epoch : Z.
Hypothesis Epoch_nonzero : Epoch <> 0.

Lemma registrations_app acts1 acts2 :
  registrations (acts1 ++ acts2) = (registrations acts1 + registrations acts2)%nat.
Proof. unfold registrations. by rewrite omap_app, length_app. Qed.

Lemma workerStarts_app acts1 acts2 :
  workerStarts (acts1 ++ acts2) = (workerStarts acts1 + workerStarts acts2)%nat.
Proof. unfold workerStarts. by rewrite omap_app, length_app. Qed.

(** One iteration never panics when the epoch length is not zero; it
    registers exactly on an epoch block and returns exactly on the exit
    channel and on an error of the chain subscription. *)
Lemma step_registrations s r :
  exists s1 acts1,
    step Epoch s r = Returned (s1, acts1, returns r)
    /\ registrations acts1 = epochBlocks Epoch [r].
Proof.
  unfold epochBlocks.
  destruct r as [[[| |]|] mining|addr|number| | |]; simpl.
  1-4: destruct (dlEventCh s); simpl; unfold restart;
       try destruct (shouldStart s); eauto.
  - destruct (canStart s); eauto.
  - destruct (Z.eqb_spec Epoch 0); [done|].
    destruct (number mod Epoch =? 0); eauto.
  - eauto.
  - unfold deferred. destruct (eventsClosed s); eauto.
  - unfold deferred. destruct (eventsClosed s); eauto.
Qed.

Lemma loop_registrations s received :
  exists s' acts,
    loop Epoch s received = Returned (s', acts, existsb returns received)
    /\ registrations acts = epochBlocks Epoch (handled received).
Proof.
  revert s. induction received as [|r rest IH]; intros s; simpl; [eauto|].
  destruct (step_registrations s r) as (s1 & acts1 & -> & Hreg). simpl.
  destruct (returns r) eqn:Hr; simpl; [eauto|].
  destruct (IH s1) as (s2 & acts2 & -> & Hreg2). simpl.
  eexists _, _. split; [done|].
  rewrite registrations_app, Hreg, Hreg2.
  unfold epochBlocks. simpl. by destruct r as [| |number| | |]; try destruct (_ =? 0).
Qed.

(** X25.  With a non-zero epoch length [update] never panics, and up to
    the receive that makes it return it has registered the validator once
    on entry and once more for every chain block whose number is a
    multiple of the epoch length; it returns exactly when the exit channel
    or the error channel of the chain subscription fires. *)
Theorem update_registrations coinbase0 received :
  exists s acts,
    update Epoch coinbase0 received = Returned (s, acts, existsb returns received)
    /\ registrations acts = S (epochBlocks Epoch (handled received)).
Proof.
  unfold update.
  destruct (loop_registrations (initial coinbase0) received) as (s & acts & -> & Hreg).
  simpl. eexists _, _. split; [done|].
  change (S (registrations acts) = S (epochBlocks Epoch (handled received))).
  by rewrite Hreg.
Qed.

Lemma step_during_sync s r s1 acts1 returned :
  canStart s = false -> endsSync r = false ->
  step Epoch s r = Returned (s1, acts1, returned) ->
  workerStarts acts1 = 0%nat /\ canStart s1 = false.
Proof.
  intros Hc He. destruct r as [[[| |]|] mining|addr|number| | |]; simpl in *;
    try discriminate He.
  - destruct (dlEventCh s); simpl; intros [= <- <- <-]; done.
  - destruct (dlEventCh s); simpl; intros [= <- <- <-]; done.
  - rewrite Hc. intros [= <- <- <-]. done.
  - destruct (Epoch =? 0); [discriminate|].
    destruct (number mod Epoch =? 0); intros [= <- <- <-]; done.
  - intros [= <- <- <-]. done.
  - unfold deferred. intros [= <- <- <-]. by destruct (eventsClosed s).
  - unfold deferred. intros [= <- <- <-]. by destruct (eventsClosed s).
Qed.

Lemma loop_during_sync s received s' acts returned :
  canStart s = false -> Forall (fun r => endsSync r = false) received ->
  loop Epoch s received = Returned (s', acts, returned) ->
  workerStarts acts = 0%nat /\ canStart s' = false.
Proof.
  intros Hc Hall. revert s s' acts returned Hc.
  induction Hall as [|r rest Hr _ IH]; intros s s' acts returned Hc; simpl.
  { by intros [= <- <- <-]. }
  destruct (step Epoch s r) as [[[s1 acts1] ret1]|p] eqn:Hs; simpl; [|discriminate].
  destruct (step_during_sync s r s1 acts1 ret1 Hc Hr Hs) as [Hw1 Hc1].
  destruct ret1; [by intros [= <- <- <-]|].
  destruct (loop Epoch s1 rest) as [[[s2 acts2] ret2]|p] eqn:Hl; simpl; [|discriminate].
  intros [= <- <- <-]. destruct (IH s1 s2 acts2 ret2 Hc1 Hl) as [Hw2 Hc2].
  by rewrite workerStarts_app, Hw1, Hw2.
Qed.

(** X26.  From the moment a downloader [StartEvent] is received until a
    [DoneEvent] or [FailedEvent] is, the loop stops the worker and never
    starts it, whatever else it receives (start requests included). *)
Theorem no_worker_start_during_sync s mining received s' acts returned :
  dlEventCh s = true ->
  Forall (fun r => endsSync r = false) received ->
  loop Epoch s (RecvDlEvent (Some StartEvent) mining :: received)
  = Returned (s', acts, returned) ->
  workerStarts acts = 0%nat
  /\ canStart s' = false
  /\ exists rest, acts = WorkerStop :: rest.
Proof.
  intros Hd Hall. cbn [loop step]. rewrite Hd. simpl.
  destruct (loop Epoch _ received) as [[[s2 acts2] ret2]|p] eqn:Hl; simpl; [|discriminate].
  intros [= <- <- <-].
  apply loop_during_sync in Hl as [Hw Hc]; [|done|done].
  split_and!; [|done|eauto]. unfold workerStarts in *. simpl. done.
Qed.

Lemma loop_chain_blocks s blocks :
  Forall (fun r => exists number, r = RecvChainBlock number) blocks ->
  exists acts, loop Epoch s blocks = Returned (s, acts, false)
               /\ workerStarts acts = 0%nat.
Proof.
  induction 1 as [|r rest [number ->] _ (acts & IH & Hw)]; simpl; [eauto|].
  destruct (Z.eqb_spec Epoch 0); [done|].
  destruct (number mod Epoch =? 0); simpl; rewrite IH; simpl; eauto.
Qed.

Lemma loop_app s l1 l2 s1 acts1 :
  loop Epoch s l1 = Returned (s1, acts1, false) ->
  loop Epoch s (l1 ++ l2)
  = '(s2, acts2, returned) ← loop Epoch s1 l2; Returned (s2, acts1 ++ acts2, returned).
Proof.
  revert s acts1. induction l1 as [|r l1 IH]; intros s acts1; simpl.
  - intros [= <- <-]. simpl.
    by destruct (loop Epoch s l2) as [[[s2 acts2] ret2]|p].
  - destruct (step Epoch s r) as [[[sa actsa] reta]|p]; simpl; [|discriminate].
    destruct reta; [discriminate|].
    destruct (loop Epoch sa l1) as [[[sb actsb] retb]|p] eqn:Hl; simpl; [|discriminate].
    intros [= <- <- ->]. rewrite (IH sa actsb Hl).
    destruct (loop Epoch sb l2) as [[[s2 acts2] ret2]|p]; simpl; [|done].
    by rewrite app_assoc.
Qed.

(** X27.  A start request is honoured when the sync ends: after a start
    request for [addr], chain blocks aside, the next [DoneEvent] or
    [FailedEvent] sets the etherbase to [addr] and starts the worker (also
    when the request itself could not start it because a sync was in
    progress); a [DoneEvent] then ends the subscription to downloader
    events. *)
Theorem start_request_honoured_after_sync s addr blocks ev mining :
  dlEventCh s = true ->
  Forall (fun r => exists number, r = RecvChainBlock number) blocks ->
  ev = DoneEvent \/ ev = FailedEvent ->
  exists s' before,
    loop Epoch s (RecvStart addr :: blocks ++ [RecvDlEvent (Some ev) mining])
    = Returned (s', before ++ [WorkerSetEtherbase addr; WorkerStart]
                       ++ (if ev is DoneEvent then [EventsUnsubscribe] else []),
                false)
    /\ (canStart s = false -> workerStarts before = 0%nat)
    /\ canStart s' = true /\ shouldStart s' = true /\ coinbase s' = addr.
Proof.
  intros Hd Hblocks Hev. cbn [loop step]. cbn [mbind outcome_bind].
  set (s1 := {| shouldStart := true; canStart := canStart s; dlEventCh := dlEventCh s;
                coinbase := addr; eventsClosed := eventsClosed s |}).
  destruct (loop_chain_blocks s1 blocks Hblocks) as (acts & Hl & Hw).
  rewrite (loop_app s1 blocks _ s1 acts Hl).
  cbn [loop step]. unfold s1 at 1 2. cbn [dlEventCh]. rewrite Hd. cbn [negb].
  destruct Hev as [-> | ->]; cbn [mbind outcome_bind restart]; unfold restart; simpl.
  - eexists _, (([WorkerSetEtherbase addr] ++ (if canStart s then [WorkerStart] else []))
                  ++ acts).
    split; [by rewrite <- !app_assoc|]. split_and!; try done.
    intros Hc. rewrite Hc. rewrite workerStarts_app, Hw. done.
  - eexists _, (([WorkerSetEtherbase addr] ++ (if canStart s then [WorkerStart] else []))
                  ++ acts).
    split; [by rewrite <- !app_assoc, ?app_nil_r|]. split_and!; try done.
    intros Hc. rewrite Hc. rewrite workerStarts_app, Hw. done.
Qed.

End UpdateExtras.

(** ** The further properties at the sample data *)

(** Adding [relay-b] leaves [relay-a] with its client. *)
Lemma registry_frame_witness :
  Get (Add Samples.dial Samples.registry_ag "relay-b").1 "relay-a" = Some 1%nat
  /\ clientGrpcMap (Add Samples.dial Samples.registry_ag "relay-b").1
     = clientGrpcMap Samples.registry_ag.
Proof.
  destruct (registry_frame Samples.dial Samples.dial Samples.newClient
              Samples.registry_ag "relay-b" "relay-a") as [(Hg & _) (Hp & _)];
    [discriminate|].
  split; [|exact Hp]. rewrite Hg. reflexivity.
Defined.

(** A relay whose registration call failed is removed again. *)
Lemma RemoveRelay_after_AddRelay_witness :
  RemoveRelay
    (AddRelay Samples.dial "abc" Samples.callFails
       (Samples.miner_with Samples.registry_empty "") "relay-a").1 "relay-a"
  = (Samples.miner_with Samples.registry_empty "", None).
Proof.
  apply (RemoveRelay_after_AddRelay Samples.dial "abc" Samples.callFails
           (Samples.miner_with Samples.registry_empty "") "relay-a" 7%nat);
    reflexivity.
Defined.

(** The one call of a legacy broadcast. *)
Lemma registerValidator_payload_witness :
  Get (mevRelays (Samples.miner_with Samples.registry_a "")) "relay-a" = Some 1%nat
  /\ rva_GasCeil
       {| rva_Data := String.list_byte_of_string "http://validator:8545";
          rva_Signature := []; rva_Namespace := "eth"; rva_CommitHash := "abc";
          rva_GasCeil := 30000000 |} = 30000000.
Proof.
  pose proof (registerValidator_payload "abc" (Samples.miner_with Samples.registry_a "")
                (LegacyCall "relay-a" 1%nat "eth_registerValidator"
                   {| rva_Data := String.list_byte_of_string "http://validator:8545";
                      rva_Signature := []; rva_Namespace := "eth";
                      rva_CommitHash := "abc"; rva_GasCeil := 30000000 |})) as H.
  destruct H as (Hg & _ & Ha).
  { vm_compute. apply list_elem_of_here. }
  split; [exact Hg|reflexivity].
Defined.

(** 1.95 s before the deadline the simulation runs under a timeout of
    1.95 s. *)
Lemma ProposedBlock_simulation_timeout_witness :
  exists rest,
    events (ProposedBlock Samples.calcGasLimit Samples.simulateSkips Samples.workerTakes
              (Samples.miner_with Samples.registry_a "") Samples.now_early
              "relay-a" 101 171%N 1 30000000 5000000 [] ∅)
    = EvSimulate 1950000000
        (proposalArgs "relay-a" 101 171%N 1 30000000 5000000 [] ∅) :: rest
    /\ (rest = [] \/ exists msg, rest = [EvEnqueue msg]).
Proof.
  apply (ProposedBlock_simulation_timeout Samples.calcGasLimit Samples.simulateSkips
           Samples.workerTakes (Samples.miner_with Samples.registry_a "")
           Samples.now_early "relay-a" 101 171%N 1 30000000 5000000 [] ∅);
    by_evaluation.
Defined.

(** The engine fails after 7 ms. *)
Lemma ProposedBlock_simulation_error_witness :
  let r := ProposedBlock Samples.calcGasLimit MoreSamples.simulateFails
             Samples.workerTakes (Samples.miner_with Samples.registry_a "")
             Samples.now_early "relay-a" 101 171%N 1 30000000 5000000 [] ∅ in
  err r = Some (ErrSimulationFailed (ErrExternal "bad block"))
  /\ simDuration r = 7000000 /\ enqueued r = [] /\ simulateCalls r = 1%nat.
Proof.
  apply (ProposedBlock_simulation_error Samples.calcGasLimit MoreSamples.simulateFails
           Samples.workerTakes (Samples.miner_with Samples.registry_a "")
           Samples.now_early "relay-a" 101 171%N 1 30000000 5000000 [] ∅ None);
    by_evaluation.
Defined.

(** The engine returns work and the worker takes the message. *)
Lemma ProposedBlock_handoff_witness :
  let r := ProposedBlock Samples.calcGasLimit MoreSamples.simulateWorks
             Samples.workerTakes (Samples.miner_with Samples.registry_a "")
             Samples.now_early "relay-a" 101 171%N 1 30000000 5000000 [] ∅ in
  err r = None
  /\ enqueued r
     = [{| pb_args := proposalArgs "relay-a" 101 171%N 1 30000000 5000000 [] ∅;
           pb_simulatedWork := 5%nat; pb_simDuration := 50000000 |}].
Proof.
  destruct (ProposedBlock_handoff Samples.calcGasLimit MoreSamples.simulateWorks
              Samples.workerTakes (Samples.miner_with Samples.registry_a "")
              Samples.now_early "relay-a" 101 171%N 1 30000000 5000000 [] ∅
              5%nat 50000000) as (_ & _ & Hh); [by_evaluation..|].
  exact Hh.
Defined.

(** A request for block 101 on head 100. *)
Lemma ProposeBlock_forwards_witness :
  let r := grpc.ProposeBlock Samples.unmarshalBinary (fun _ => 171%N)
             {| grpc.backend := Samples.backend_enabled |} 0 1
             (Samples.request_for 101) in
  r.1 = [ethapi.CallCurrentBlock;
         ethapi.CallProposedBlock "relay-g" 101 171%N 1 30000000 5000000 [1%nat] ∅]
  /\ r.2 = Ok {| grpc.ReceivedAt := 0; grpc.SimulatedDuration := 50000000;
                 grpc.ResponseSentAt := 1 |}.
Proof.
  destruct (ProposeBlock_forwards Samples.unmarshalBinary (fun _ => 171%N)
              {| grpc.backend := Samples.backend_enabled |} 0 1
              (Samples.request_for 101) [1%nat]) as (Hc & _ & Hr).
  - discriminate.
  - discriminate.
  - reflexivity.
  - repeat constructor.
  - split; [exact Hc|exact (Hr eq_refl)].
Defined.

(** The same request when its transaction does not decode. *)
Lemma ProposeBlock_decode_error_witness :
  grpc.ProposeBlock MoreSamples.unmarshalNothing (fun _ => 171%N)
    {| grpc.backend := Samples.backend_enabled |} 0 1 (Samples.request_for 101)
  = ([ethapi.CallCurrentBlock], Err (ErrExternal "typed transaction too short")).
Proof.
  apply (ProposeBlock_decode_error MoreSamples.unmarshalNothing (fun _ => 171%N)
           {| grpc.backend := Samples.backend_enabled |} 0 1 (Samples.request_for 101)
           [] [] [Byte.x01] []).
  - discriminate.
  - reflexivity.
  - reflexivity.
  - constructor.
  - reflexivity.
Defined.

(** Epoch 200: blocks 400 and 401 arrive, then the exit; block 600 is not
    handled any more.  Two registrations: on entry and for block 400. *)
Lemma update_registrations_witness :
  exists s acts,
    minerloop.update 200 1%N MoreSamples.until_exit = Returned (s, acts, true)
    /\ minerloop.registrations acts = 2%nat.
Proof.
  destruct (update_registrations 200 ltac:(discriminate) 1%N MoreSamples.until_exit)
    as (s & acts & Hu & Hr).
  exists s, acts. split; [exact Hu|exact Hr].
Defined.

(** A sync starts while mining; the start request that follows does not
    start the worker. *)
Lemma no_worker_start_during_sync_witness :
  minerloop.workerStarts
    [minerloop.WorkerStop; minerloop.WorkerSetEtherbase 9%N;
     minerloop.CallRegisterValidator] = 0%nat.
Proof.
  refine (proj1 (no_worker_start_during_sync 200 (minerloop.initial 1%N) true
                   MoreSamples.during_sync
                   {| minerloop.shouldStart := true; minerloop.canStart := false;
                      minerloop.dlEventCh := true; minerloop.coinbase := 9%N;
                      minerloop.eventsClosed := false |}
                   _ false eq_refl _ eq_refl)).
  repeat constructor.
Defined.

(** A start request for address 9 during a sync, an epoch block, then the
    sync is done. *)
Lemma start_request_honoured_after_sync_witness :
  exists s' before,
    minerloop.loop 200
      {| minerloop.shouldStart := false; minerloop.canStart := false;
         minerloop.dlEventCh := true; minerloop.coinbase := 1%N;
         minerloop.eventsClosed := false |}
      (minerloop.RecvStart 9%N
       :: [minerloop.RecvChainBlock 400]
          ++ [minerloop.RecvDlEvent (Some minerloop.DoneEvent) false])
    = Returned (s', before ++ [minerloop.WorkerSetEtherbase 9%N; minerloop.WorkerStart]
                       ++ [minerloop.EventsUnsubscribe], false)
    /\ minerloop.workerStarts before = 0%nat.
Proof.
  destruct (start_request_honoured_after_sync 200 ltac:(discriminate)
              {| minerloop.shouldStart := false; minerloop.canStart := false;
                 minerloop.dlEventCh := true; minerloop.coinbase := 1%N;
                 minerloop.eventsClosed := false |}
              9%N [minerloop.RecvChainBlock 400] minerloop.DoneEvent false)
    as (s' & before & Hl & Hw & _).
  - reflexivity.
  - repeat constructor. by exists 400.
  - by left.
  - exists s', before. split; [exact Hl|exact (Hw eq_refl)].
Defined.
